(** * Telecom churn ETL pipeline: Rocq model of the load, transform and
      validate scripts

    The three scripts [scripts/load.py], [scripts/transform.py] and
    [scripts/validate.py] are embedded as executable Rocq functions and
    the properties of the pipeline specification are proved about them.

    Conventions of the embedding.
    - A Python [str] is a [string] of 8-bit characters. The pipeline's
      headers, category values and error signatures are ASCII; characters
      above 127 are treated as caseless and as no white space.
    - Python [int] is [Z]; a pandas float is an exact rational [Qc]
      (rounding of the IEEE mean of two floats is not modelled); a missing
      value (NaN / None) is an explicit [Null] or [None].
    - The remote store, the environment variables and the local files are
      explicit arguments; what the loader does to the outside world is a
      chronological [trace] of events. Writing the local copy is assumed
      to succeed. *)

From Stdlib Require Import ZArith QArith Qcanon String Ascii List Bool Lia.
From stdpp Require Import base decidable option numbers sorting strings gmap list.

Local Open Scope string_scope.
Local Open Scope list_scope.

(** ** Python string primitives used by the scripts *)

Module PyStr.

Definition chars (s : string) : list ascii := list_ascii_of_string s.
Definition str (l : list ascii) : string := string_of_list_ascii l.

Definition code (c : ascii) : N := N_of_ascii c.

Definition in_range (lo hi : N) (c : ascii) : bool :=
  (lo <=? code c)%N && (code c <=? hi)%N.

(** The regular-expression classes [A-Z], [a-z], [0-9]. *)
Definition re_upper : ascii -> bool := in_range 65 90.
Definition re_lower : ascii -> bool := in_range 97 122.
Definition re_digit : ascii -> bool := in_range 48 57.

Definition underscore : ascii := "_"%char.
Definition is_underscore (c : ascii) : bool := Ascii.eqb c underscore.

(** [ch.isupper()] on one character. *)
Definition isupper (c : ascii) : bool := re_upper c.

(** [s.lower()] *)
Definition lower_char (c : ascii) : ascii :=
  if re_upper c then ascii_of_N (code c + 32) else c.
Definition lower (s : list ascii) : list ascii := map lower_char s.

(** [s.strip(ch)] for a one-character argument. *)
Fixpoint lstrip (ch : ascii) (s : list ascii) : list ascii :=
  match s with
  | [] => []
  | c :: r => if Ascii.eqb c ch then lstrip ch r else s
  end.
Definition rstrip (ch : ascii) (s : list ascii) : list ascii :=
  rev (lstrip ch (rev s)).
Definition strip (ch : ascii) (s : list ascii) : list ascii :=
  rstrip ch (lstrip ch s).

(** [s.replace(ch, "")] for a one-character [ch]. *)
Definition remove_char (ch : ascii) (s : list ascii) : list ascii :=
  List.filter (fun c => negb (Ascii.eqb c ch)) s.

(** White space of [str.strip()] with no argument, ASCII part:
    tab, line feed, vertical tab, form feed, carriage return, the four
    separators 28..31 and the space. *)
Definition isspace (c : ascii) : bool :=
  in_range 9 13 c || in_range 28 31 c || (code c =? 32)%N.
Fixpoint lstrip_ws (s : list ascii) : list ascii :=
  match s with
  | [] => []
  | c :: r => if isspace c then lstrip_ws r else s
  end.
Definition strip_ws (s : list ascii) : list ascii :=
  rev (lstrip_ws (rev (lstrip_ws s))).

(** [needle in hay] on strings: [needle] occurs at some position. *)
Fixpoint contains (needle hay : string) : bool :=
  String.prefix needle hay
  || match hay with
     | EmptyString => false
     | String _ rest => contains needle rest
     end.

End PyStr.

(** ** scripts/load.py *)

Module Load.
Import PyStr.

(** *** Column names: [_normalize_col] and the mapping loop *)

(** [[a-z0-9]], the first group of the camel-case pattern. *)
Definition re_lower_or_digit (c : ascii) : bool := re_lower c || re_digit c.

(** [[0-9a-zA-Z_]]; the second pattern is its complement. *)
Definition re_word (c : ascii) : bool :=
  re_digit c || re_lower c || re_upper c || is_underscore c.

(** [re.sub(r'([a-z0-9])([A-Z])', r'\1_\2', s)]: the scan tries the
    two-character pattern at each position; a match emits both
    characters with an underscore between them and resumes after the
    second one, a failure emits one character and moves on by one. *)
Fixpoint sub_camel (s : list ascii) : list ascii :=
  match s with
  | c1 :: ((c2 :: rest) as tl) =>
      if re_lower_or_digit c1 && re_upper c2
      then c1 :: underscore :: c2 :: sub_camel rest
      else c1 :: sub_camel tl
  | _ => s
  end.

(** [re.sub(r'[^0-9a-zA-Z_]+', '_', s)]: a match starts at the first
    character outside the class and greedily takes all that follow;
    [in_match] tells that the previous character was taken by the
    match in progress, whose single underscore is already emitted. *)
Fixpoint sub_nonword_from (in_match : bool) (s : list ascii) : list ascii :=
  match s with
  | [] => []
  | c :: rest =>
      if re_word c then c :: sub_nonword_from false rest
      else if in_match then sub_nonword_from true rest
      else underscore :: sub_nonword_from true rest
  end.
Definition sub_nonword (s : list ascii) : list ascii :=
  sub_nonword_from false s.

Definition _normalize_col (c : string) : string :=
  let s := sub_camel (chars c) in
  let s := sub_nonword s in
  str (lower (strip underscore s)).

(** [any(ch.isupper() for ch in str(orig))] *)
Definition any_upper (orig : string) : bool := existsb isupper (chars orig).

(** One turn of the loop over [zip(original_cols, normalized)]. *)
Definition db_name (orig norm : string) : string :=
  if any_upper orig then str (remove_char underscore (chars norm)) else norm.

Definition map_columns (original_cols : list string) : list string :=
  let normalized := map _normalize_col original_cols in
  map (fun '(orig, norm) => db_name orig norm) (zip original_cols normalized).

(** *** Data of the loader *)

(** A value of the staged CSV as pandas holds it. *)
Inductive cell :=
| Null
| Num (q : Qc)
| Text (s : string).

Definition row := list cell.

(** A DataFrame, row by row: the header and the rows in file order. *)
Record frame := Frame { columns : list string; rows : list row }.

(** One dictionary of [batch.to_dict('records')], in column order. *)
Definition record := list (string * cell).

Definition to_records (cols : list string) (batch : list row) : list record :=
  map (fun r => zip cols r) batch.

(** What [supabase.table(t).insert(records).execute()] can do: return
    something that is not a dict with a truthy ['error'], return such a
    dict ([err_str] is [str(err)]), or raise ([err_str] is [str(e)]). *)
Inductive response :=
| Accepted
| ErrorField (err_str : string)
| Exception (err_str : string).

(** What the loader does to the outside world, and the lines it prints
    when it gives up on a batch, finishes, or reports a caught error. *)
Inductive event :=
| Insert (table : string) (records : list record) (resp : response)
| Sleep (seconds : Qc)
| WriteLocal (df : frame)
| Skipped (batch_no : Z)
| Finished
| ErrorLoading (msg : string).

Definition trace := list event.

(** The remote store answers an insert knowing all that happened. *)
Definition store := trace -> string -> list record -> response.

Record client := Client { client_url : string; client_key : string }.

(** Python truth value of [os.getenv(...)]: unset and empty are false. *)
Definition truthy (v : option string) : bool :=
  match v with
  | Some (String _ _) => true
  | _ => false
  end.

Definition get_supabase_client (url key : option string) : option client :=
  if negb (truthy url) || negb (truthy key) then None
  else Some (Client (default "" url) (default "" key)).

(** How a block of statements ends: by falling through to the next
    statement, by [return], or by an exception on its way out.
    [Stuck] marks a loop that was cut before its condition failed. *)
Inductive flow :=
| Normal
| Return
| Raise (msg : string)
| Stuck.

(** One turn of the [while] loop either asks for another turn
    ([continue], with the new attempt counter) or leaves the loop. *)
Inductive turn :=
| Again (attempt : Z)
| Leave (f : flow).

(** *** Python built-ins used by the loop *)

Fixpoint range_up (fuel : nat) (i stop step : Z) : list Z :=
  match fuel with
  | O => []
  | S fuel => if i <? stop then i :: range_up fuel (i + step) stop step else []
  end%Z.

Fixpoint range_down (fuel : nat) (i stop step : Z) : list Z :=
  match fuel with
  | O => []
  | S fuel => if stop <? i then i :: range_down fuel (i + step) stop step else []
  end%Z.

(** [range(start, stop, step)]; [None] is the ValueError for a zero step. *)
Definition py_range (start stop step : Z) : option (list Z) :=
  if (step =? 0)%Z then None
  else if (0 <? step)%Z
       then Some (range_up (Z.to_nat (stop - start)) start stop step)
       else Some (range_down (Z.to_nat (start - stop)) start stop step).

(** Slice bounds: a negative index counts from the end, and both ends
    are clamped to the length. *)
Definition slice_index (n i : Z) : Z :=
  if (i <? 0)%Z then Z.max (i + n) 0 else Z.min i n.

(** [df.iloc[start:stop]] on the rows. *)
Definition iloc {A} (l : list A) (start stop : Z) : list A :=
  let n := Z.of_nat (length l) in
  let a := slice_index n start in
  let b := slice_index n stop in
  take (Z.to_nat (b - a)) (drop (Z.to_nat a) l).

(** [time.sleep(secs)]: a negative duration is a ValueError. *)
Definition time_sleep (secs : Qc) (t : trace) : trace + string :=
  if decide (secs < 0)%Qc then inr "sleep length must be non-negative"
  else inl (t ++ [Sleep secs]).

(** *** The insert loop *)

(** The test of lines 186 and 212. *)
Definition is_schema_issue (err_str : string) : bool :=
  contains "Could not find" err_str
  || contains "PGRST" err_str
  || contains "column" err_str.

Section Run.
Variable remote : store.
Variable supabase : option client.
Variable table_name : string.
Variables batch_size max_retries : Z.
Variable backoff_factor : Qc.
(** The DataFrame after [df.columns = mapped]. *)
Variable df : frame.

Definition total_rows : Z := Z.of_nat (length (rows df)).

(** [df.to_csv(out_path, index=False)] *)
Definition write_local_copy (t : trace) : trace := t ++ [WriteLocal df].

(** [backoff_factor ** attempt]; [attempt] is at least 1 here. *)
Definition wait_for (attempt : Z) : Qc :=
  Qcpower backoff_factor (Z.to_nat attempt).

(** [i//batch_size + 1] *)
Definition batch_no (i : Z) : Z := (i / batch_size + 1)%Z.

(** The clause [except Exception as e] of the inner [try]
    (lines 208-228). An exception raised inside it leaves the loop. *)
Definition on_exception (i attempt : Z) (err_str : string) (t : trace)
  : turn * trace :=
  if is_schema_issue err_str then (Leave Return, write_local_copy t)
  else
    let attempt := (attempt + 1)%Z in
    if (attempt >? max_retries)%Z then (Leave Normal, t ++ [Skipped (batch_no i)])
    else match time_sleep (wait_for attempt) t with
         | inl t' => (Again attempt, t')
         | inr msg => (Leave (Raise msg), t)
         end.

(** The body of the inner [try] (lines 179-206). An exception raised
    in it, by the insert or by [time.sleep], goes to [on_exception]. *)
Definition try_insert (i attempt : Z) (records : list record) (t : trace)
  : turn * trace :=
  let response := remote t table_name records in
  let t := t ++ [Insert table_name records response] in
  match response with
  | Exception err_str => on_exception i attempt err_str t
  | ErrorField err_str =>
      if is_schema_issue err_str then (Leave Return, write_local_copy t)
      else
        let attempt := (attempt + 1)%Z in
        if (attempt >? max_retries)%Z
        then (Leave Normal, t ++ [Skipped (batch_no i)])
        else match time_sleep (wait_for attempt) t with
             | inl t' => (Again attempt, t')
             | inr msg => on_exception i attempt msg t
             end
  | Accepted => (Leave Normal, t)
  end.

(** [while attempt <= max_retries: ...] *)
Fixpoint retry_loop (fuel : nat) (i attempt : Z) (records : list record)
  (t : trace) : flow * trace :=
  if (attempt <=? max_retries)%Z then
    match fuel with
    | O => (Stuck, t)
    | S fuel =>
        match try_insert i attempt records t with
        | (Again attempt', t') => retry_loop fuel i attempt' records t'
        | (Leave f, t') => (f, t')
        end
    end
  else (Normal, t).

(** The records of the batch that starts at row [i] (lines 162-165);
    nulls stay nulls. *)
Definition batch_records (i : Z) : list record :=
  to_records (columns df) (iloc (rows df) i (i + batch_size)).

(** [for i in range(0, total_rows, batch_size): ...] over the start
    rows that [range] yields. *)
Fixpoint for_batches (starts : list Z) (t : trace) : flow * trace :=
  match starts with
  | [] => (Normal, t)
  | i :: later =>
      match supabase with
      | None => (Return, write_local_copy t)
      | Some _ =>
          match retry_loop (Z.to_nat (max_retries + 1)) i 0 (batch_records i) t with
          | (Normal, t') => for_batches later t'
          | stop => stop
          end
      end
  end.

(** Lines 151-230: everything after the header mapping. *)
Definition insert_all (t : trace) : flow * trace :=
  match supabase with
  | None => (Return, write_local_copy t)
  | Some _ =>
      match py_range 0 total_rows batch_size with
      | None => (Raise "range() arg 3 must not be zero", t)
      | Some starts =>
          match for_batches starts t with
          | (Normal, t') => (Normal, t' ++ [Finished])
          | stop => stop
          end
      end
  end.
End Run.

(** [load_to_supabase]. [staged] is the content of the staged file,
    [None] when the file does not exist; [url] and [key] are the two
    environment variables. The outer [except Exception] turns any
    exception into a printed line. *)
Definition load_to_supabase (staged : option frame) (url key : option string)
  (remote : store) (table_name : string) (batch_size max_retries : Z)
  (backoff_factor : Qc) : flow * trace :=
  match staged with
  | None => (Return, [])
  | Some df0 =>
      let supabase := get_supabase_client url key in
      let df := Frame (map_columns (columns df0)) (rows df0) in
      match insert_all remote supabase table_name batch_size max_retries
              backoff_factor df [] with
      | (Raise msg, t) => (Normal, t ++ [ErrorLoading msg])
      | done => done
      end
  end.

(** The function came back to its caller (no exception, no cut loop). *)
Definition returned (f : flow) : bool :=
  match f with
  | Normal | Return => true
  | Raise _ | Stuck => false
  end.

(** Reading the trace: the insert calls made, and the local fallback
    file as the last write left it. *)
Definition inserts (t : trace) : list (list record) :=
  omap (fun e => match e with Insert _ recs _ => Some recs | _ => None end) t.

Definition local_copy (t : trace) : option frame :=
  last (omap (fun e => match e with WriteLocal d => Some d | _ => None end) t).

(** The batches the loop walks through, as row lists. *)
Definition batches {A} (l : list A) (batch_size : Z) : option (list (list A)) :=
  starts ← py_range 0 (Z.of_nat (length l)) batch_size;
  Some (map (fun i => iloc l i (i + batch_size)) starts).

End Load.

(** ** The column normalizer as the specification words it *)

Module NameSpec.
Import PyStr.

(** Letters and digits. *)
Definition alnum (c : ascii) : bool := re_digit c || re_lower c || re_upper c.

(** Insert a separator at every boundary: between two neighbours of
    which the first satisfies [before] and the second [after]. *)
Fixpoint separate (before after : ascii -> bool) (s : list ascii) : list ascii :=
  match s with
  | [] => []
  | x :: rest =>
      x :: match rest with
           | y :: _ => if before x && after y then [underscore] else []
           | [] => []
           end ++ separate before after rest
  end.

(** Cut a name into its maximal runs of characters that are all inside
    or all outside a class; the flag of a run tells which. *)
Fixpoint runs (cls : ascii -> bool) (s : list ascii) : list (bool * list ascii) :=
  match s with
  | [] => []
  | c :: rest =>
      match runs cls rest with
      | (b, run) :: more =>
          if Bool.eqb b (cls c) then (b, c :: run) :: more
          else (cls c, [c]) :: (b, run) :: more
      | [] => [(cls c, [c])]
      end
  end.

(** Replace every maximal run inside the class by exactly one separator. *)
Definition emit (r : bool * list ascii) : list ascii :=
  if r.1 then [underscore] else r.2.

Definition replace_runs (cls : ascii -> bool) (s : list ascii) : list ascii :=
  concat (map emit (runs cls s)).

Definition canonical (before after cls : ascii -> bool) (c : string) : string :=
  str (lower (strip underscore (replace_runs cls (separate before after (chars c))))).

(** The canonical name in the words of the specification: boundaries
    from a lower-case to an upper-case letter, runs of characters that
    are not alphanumeric. *)
Definition canonical_as_specified : string -> string :=
  canonical re_lower re_upper (fun c => negb (alnum c)).

(** The canonical name with the two classes of the code: a boundary
    also after a digit, and the underscore not part of a run. *)
Definition canonical_amended : string -> string :=
  canonical Load.re_lower_or_digit re_upper (fun c => negb (Load.re_word c)).

(** Two separators side by side somewhere in the name. *)
Fixpoint adjacent_separators (s : list ascii) : bool :=
  match s with
  | x :: ((y :: _) as rest) =>
      (is_underscore x && is_underscore y) || adjacent_separators rest
  | _ => false
  end.

Definition starts_with_separator (s : list ascii) : bool :=
  match s with
  | y :: _ => is_underscore y
  | [] => false
  end.

(** No underscore of the name stands next to another character that is
    not alphanumeric (an underscore included). *)
Fixpoint underscores_apart (s : list ascii) : bool :=
  match s with
  | x :: ((y :: _) as rest) =>
      negb (is_underscore x && negb (alnum y))
      && negb (negb (alnum x) && is_underscore y)
      && underscores_apart rest
  | _ => true
  end.

End NameSpec.

(** ** Reading a run of the loader *)

Module LoadSpec.
Import Load.

(** The answer is an error that the loader takes for a schema issue. *)
Definition schema_response (r : response) : bool :=
  match r with
  | Accepted => false
  | ErrorField err_str | Exception err_str => is_schema_issue err_str
  end.

(** The answer is any other error: a transient one. *)
Definition transient (r : response) : bool :=
  match r with
  | Accepted => false
  | ErrorField err_str | Exception err_str => negb (is_schema_issue err_str)
  end.

Definition schema_insert (e : event) : bool :=
  match e with
  | Insert _ _ r => schema_response r
  | _ => false
  end.

(** No insert of the trace was answered by a schema issue. *)
Definition clean (t : trace) : Prop := Forall (fun e => schema_insert e = false) t.

(** The events end with an insert answered by a schema issue, the
    first one, and the write of the local copy of [df]. *)
Definition aborted (tbl : string) (df : frame) (ext : trace) : Prop :=
  exists ext0 recs r,
    clean ext0 /\ schema_response r = true
    /\ ext = ext0 ++ [Insert tbl recs r; WriteLocal df].

(** Every insert of the events sends records that satisfy [P]. *)
Definition sends (P : list record -> Prop) (ext : trace) : Prop :=
  Forall (fun e => match e with Insert _ recs _ => P recs | _ => True end) ext.


(** What a block of the loader adds to the trace [t]: events whose
    inserts send records in [P] and that either hold no schema issue,
    or stop at the first one with the local copy written and the
    function returning. *)
Definition extends (tbl : string) (df : frame) (P : list record -> Prop)
  (t : trace) (out : flow * trace) : Prop :=
  exists ext, out.2 = t ++ ext /\ sends P ext
    /\ (clean ext \/ (out.1 = Return /\ aborted tbl df ext)).

End LoadSpec.

(** ** Sample data for the examples *)

Module Demo.
Import Load.

Definition row_of (n : Z) : row := [Num (Qc_of_Z n); Text "Yes"].

(** Five rows under two mixed-case headers. *)
Definition five_rows : frame :=
  Frame ["SeniorCitizen"; "Partner"] (map row_of [1; 2; 3; 4; 5]%Z).

(** The renamed DataFrame the loader works on. *)
Definition five_rows_mapped : frame :=
  Frame ["seniorcitizen"; "partner"] (rows five_rows).

(** A store that answers its n-th insert with the n-th answer of a
    script, and accepts every later one. *)
Definition scripted (answers : list response) : store :=
  fun t _ _ => nth (length (inserts t)) answers Accepted.

(** A store that always answers the same. *)
Definition always (r : response) : store := fun _ _ _ => r.

Definition url : option string := Some "https://project.supabase.co".
Definition key : option string := Some "service-key".

Definition schema_error : response :=
  ErrorField "Could not find the 'seniorcitizen' column of 'churn_data' in the schema cache".

End Demo.

(** ** The column-wise DataFrame of the transform and of the validator *)

Module Pandas.

(** A column with its dtype: numbers (int64 or float64, [None] is NaN),
    objects (strings, [None] is NaN), or the categorical that [pd.cut]
    returns. A file read by [read_csv] has only the first two. *)
Inductive column :=
| Number (vals : list (option Qc))
| Object (vals : list (option string))
| Category (vals : list (option string)).

(** [s.fillna(value)] *)
Definition fillna {A} (value : option A) (vals : list (option A)) : list (option A) :=
  map (fun v => match v with Some x => Some x | None => value end) vals.

(** [s.isnull().sum()] *)
Definition count_null {A} (vals : list (option A)) : nat :=
  length (List.filter (fun v => negb (bool_decide (is_Some v))) vals).

Definition isnull_sum (c : column) : nat :=
  match c with
  | Number vals => count_null vals
  | Object vals | Category vals => count_null vals
  end.

Definition column_length (c : column) : nat :=
  match c with
  | Number vals => length vals
  | Object vals | Category vals => length vals
  end.

(** [s.median()]: NaN is skipped; the middle of the sorted values, or
    the mean of the two middle ones; NaN when nothing is left. *)
Definition median (vals : list (option Qc)) : option Qc :=
  let xs := merge_sort Qcle (omap id vals) in
  let n := length xs in
  if (n =? 0)%nat then None
  else if Nat.odd n then xs !! (n / 2)%nat
  else a ← xs !! (n / 2 - 1)%nat; b ← xs !! (n / 2)%nat; Some ((a + b) / 2)%Qc.

(** An edge of [bins]: a number or [np.inf]. *)
Inductive edge :=
| Finite (b : Qc)
| Inf.

Definition edge_lt (e : edge) (x : Qc) : bool :=
  match e with
  | Finite b => bool_decide (b < x)%Qc
  | Inf => false
  end.

(** [bins.searchsorted(x, side="left")] on increasing [bins]: the first
    index whose edge is not below [x]. *)
Fixpoint searchsorted_left (bins : list edge) (x : Qc) : nat :=
  match bins with
  | [] => 0
  | b :: later => if edge_lt b x then S (searchsorted_left later x) else 0
  end.

(** [pd.cut(x, bins, labels)] on one value, with the default
    [right=True, include_lowest=False]: index 0 (not above the lowest
    edge) and index [len(bins)] (above the highest) give NaN, and so
    does NaN. *)
Definition cut (bins : list edge) (labels : list string) (x : option Qc)
  : option string :=
  x ← x;
  let ids := searchsorted_left bins x in
  if (ids =? 0)%nat || (ids =? length bins)%nat then None
  else labels !! (ids - 1)%nat.

End Pandas.

(** ** scripts/transform.py *)

Module Transform.
Import PyStr Pandas.

Definition q (n : Z) : Qc := Qc_of_Z n.

Section WithParser.
(** The text-to-number conversion of [pd.to_numeric]: [None] for a
    text that is no number. *)
Variable parse_number : string -> option Qc.

(** [pd.to_numeric(s, errors="coerce")]: numbers stay, a text that
    is no number becomes NaN. *)
Definition to_numeric_values (c : column) : list (option Qc) :=
  match c with
  | Number vals => vals
  | Object vals | Category vals => map (fun v => v ≫= parse_number) vals
  end.

Definition to_numeric (c : column) : column := Number (to_numeric_values c).

(** [df[col] = df[col].fillna(df[col].median())]; the median of a
    column that is not numeric is a TypeError, a missing column a
    KeyError: both are [None]. *)
Definition impute_median (df : gmap string column) (col : string)
  : option (gmap string column) :=
  match df !! col with
  | Some (Number vals) => Some (<[col := Number (fillna (median vals) vals)]> df)
  | _ => None
  end.

Definition num_cols : list string := ["tenure"; "MonthlyCharges"; "TotalCharges"].

(** [df[cat_cols] = df[cat_cols].fillna("Unknown")] with [cat_cols]
    the columns of dtype object. *)
Definition fill_unknown (c : column) : column :=
  match c with
  | Object vals => Object (fillna (Some "Unknown") vals)
  | other => other
  end.

(** Step 1 of the script: lines 20-29. *)
Definition handle_missing (raw : gmap string column) : option (gmap string column) :=
  total ← raw !! "TotalCharges";
  let df := <["TotalCharges" := to_numeric total]> raw in
  df ← foldl (fun acc col => acc ≫= fun d => impute_median d col) (Some df) num_cols;
  Some (fill_unknown <$> df).

Definition bins : list edge := [Finite (q (-1)); Finite (q 12); Finite (q 36); Finite (q 60); Inf].
Definition labels : list string := ["New"; "Regular"; "Loyal"; "Champion"].

Definition tenure_group (tenure : option Qc) : option string := cut bins labels tenure.

(** The nested [np.where]; a comparison with NaN is false. *)
Definition monthly_charge_segment (charge : option Qc) : string :=
  match charge with
  | Some c => if bool_decide (c < q 30)%Qc then "Low"
              else if bool_decide (c <= q 70)%Qc then "Medium" else "High"
  | None => "High"
  end.

(** [astype(str)] on an object value: NaN reads "nan". *)
Definition astype_str (v : option string) : string := default "nan" v.

Definition lower_strip (s : string) : string := str (strip_ws (lower (chars s))).
Definition lower_only (s : string) : string := str (lower (chars s)).

Definition internet_names : list string := ["dsl"; "fiber optic"; "fiberoptic"; "fiber"].

Definition has_internet (v : option string) : Qc :=
  if bool_decide (lower_strip (astype_str v) ∈ internet_names) then q 1 else q 0.

Definition is_multi_line (v : option string) : Qc :=
  if bool_decide (lower_only (astype_str v) = "yes") then q 1 else q 0.

Definition contract_map (s : string) : option Qc :=
  if bool_decide (s = "month-to-month") then Some (q 0)
  else if bool_decide (s = "one year") then Some (q 1)
  else if bool_decide (s = "two year") then Some (q 2)
  else None.

Definition contract_code (v : option string) : Qc :=
  default (q (-1)) (contract_map (lower_strip (astype_str v))).

(** A derived column computed from the text of a column. The text of
    a number is none of the names the three features look for, so a
    numeric column gives the feature's value for no match, [miss],
    everywhere. *)
Definition from_text (f : option string -> Qc) (miss : Qc) (c : column) : column :=
  match c with
  | Object vals | Category vals => Number (map (fun v => Some (f v)) vals)
  | Number vals => Number (map (fun _ => Some miss) vals)
  end.

(** A numeric column, or the TypeError of comparing text with a number. *)
Definition numbers (df : gmap string column) (col : string) : option (list (option Qc)) :=
  match df !! col with
  | Some (Number vals) => Some vals
  | _ => None
  end.

(** Step 2 of the script: lines 36-66. The two helper columns
    [InternetService_norm] and [Contract_norm] are written and then
    dropped; only the drop is kept here. *)
Definition engineer_features (df : gmap string column) : option (gmap string column) :=
  tenure ← numbers df "tenure";
  let df := <["tenure_group" := Category (map tenure_group tenure)]> df in
  charges ← numbers df "MonthlyCharges";
  let df := <["monthly_charge_segment" :=
                Object (map (fun c => Some (monthly_charge_segment c)) charges)]> df in
  internet ← df !! "InternetService";
  let df := <["has_internet_service" := from_text has_internet (q 0) internet]> df in
  lines ← df !! "MultipleLines";
  let df := <["is_multi_line_user" := from_text is_multi_line (q 0) lines]> df in
  contract ← df !! "Contract";
  let df := <["contract_type_code" := from_text contract_code (q (-1)) contract]> df in
  Some (delete "InternetService_norm" (delete "Contract_norm" df)).

(** Step 3: [df.drop(columns=["customerID", "gender"], errors="ignore")]. *)
Definition drop_fields (df : gmap string column) : gmap string column :=
  delete "customerID" (delete "gender" df).


(** [transform_data], from the DataFrame read from [raw_path] to the
    DataFrame written to the staged file; [None] when the script
    stops with an exception. *)
Definition transform_data (raw : gmap string column) : option (gmap string column) :=
  df ← handle_missing raw;
  df ← engineer_features df;
  Some (drop_fields df).
End WithParser.

End Transform.

(** ** scripts/validate.py *)

Module Validate.
Import Pandas.

(** What the exact-count query can give back. *)
Inductive count_response :=
| HasCount (count : option Z)
| DictResponse (count : option Z) (data_rows : option nat)
| OtherResponse
| CountRaises (err_str : string).

(** [supabase_row_count]: the count of the remote table when there is a
    client and the answer has one, else [None]. *)
Definition supabase_row_count (supabase : option Load.client)
  (response : count_response) : option Z :=
  match supabase with
  | None => None
  | Some _ =>
      match response with
      | HasCount count => count
      | DictResponse (Some count) _ => Some count
      | DictResponse None (Some n) => Some (Z.of_nat n)
      | DictResponse None None => None
      | OtherResponse => None
      | CountRaises _ => None
      end
  end.

(** An element of [set(column.unique())]: a number, a text or NaN. *)
Definition value : Type := option (Qc + string).

Definition values_of (c : column) : list value :=
  match c with
  | Number vals => map (fmap inl) vals
  | Object vals | Category vals => map (fmap inr) vals
  end.

Definition unique_values (c : column) : gset value := list_to_set (values_of c).

Definition text (s : string) : value := Some (inr s).
Definition number (n : Z) : value := Some (inl (Qc_of_Z n)).

Definition expected_tenure_groups : gset value :=
  {[ text "New"; text "Regular"; text "Loyal"; text "Champion" ]}.
Definition expected_segments : gset value :=
  {[ text "Low"; text "Medium"; text "High" ]}.
Definition valid_codes : gset value := {[ number 0; number 1; number 2 ]}.

Record report := Report {
  missing_values : bool;
  local_row_count : Z;
  supabase_row_count_seen : option Z;
  row_count_match : bool;
  tenure_group_ok : bool;
  monthly_segment_ok : bool;
  contract_code_ok : bool
}.

Definition required_cols : list string := ["tenure"; "MonthlyCharges"; "TotalCharges"].

(** [run_validation] on the staged DataFrame ([None] when the staged
    file does not exist: the early return of line 61), the client and
    the answer of the count query; the result is the dictionary
    [validation_results], [None] when there is none (no staged file, or
    a KeyError for a column that is not there). [len(df)] is read off
    the first required column. *)
Definition run_validation (staged : option (gmap string column))
  (supabase : option Load.client) (response : count_response) : option report :=
  df ← staged;
  let sb_count := supabase_row_count supabase response in
  missing_check ← mapM (fun c => isnull_sum <$> df !! c) required_cols;
  rows ← column_length <$> df !! "tenure";
  let local_row_count := Z.of_nat rows in
  tenure_group ← df !! "tenure_group";
  segment ← df !! "monthly_charge_segment";
  codes ← df !! "contract_type_code";
  Some {|
    missing_values := bool_decide (sum_list missing_check = 0%nat);
    local_row_count := local_row_count;
    supabase_row_count_seen := sb_count;
    row_count_match := bool_decide (Some local_row_count = sb_count);
    tenure_group_ok := bool_decide (expected_tenure_groups = unique_values tenure_group);
    monthly_segment_ok := bool_decide (expected_segments = unique_values segment);
    contract_code_ok := bool_decide (unique_values codes ⊆ valid_codes)
  |}.

End Validate.

(** ** A sample raw file *)

Module DemoRaw.
Import Pandas Transform.

(** A parser that knows the two number texts of the sample. *)
Definition parse (s : string) : option Qc :=
  if bool_decide (s = "20") then Some (q 20)
  else if bool_decide (s = "7") then Some (q 7)
  else None.

Definition tenure : list (option Qc) := [Some (q 0); None; Some (q 13); Some (q 61)].
Definition charges : list (option Qc) := [Some (q 10); Some (q 30); None; Some (q 100)].
Definition total : column := Object [Some "20"; Some " "; None; Some "7"].

Definition raw : gmap string column :=
  list_to_map
    [("tenure", Number tenure);
     ("MonthlyCharges", Number charges);
     ("TotalCharges", total);
     ("InternetService", Object [Some " DSL"; None; Some "No"; Some "Fiber optic"]);
     ("MultipleLines", Object [Some "Yes"; Some " yes"; None; Some "No"]);
     ("Contract", Object [Some "Month-to-month"; Some "Two year "; None; Some "x"]);
     ("customerID", Object [Some "0001"; Some "0002"; None; Some "0004"]);
     ("gender", Object [Some "Female"; Some "Male"; None; Some "Male"])].

(** A staged file with the four contract codes 0, 1, 2 and -1. *)
Definition staged : gmap string column :=
  list_to_map
    [("tenure", Number [Some (q 0); Some (q 13); Some (q 40); Some (q 61)]);
     ("MonthlyCharges", Number charges);
     ("TotalCharges", Number charges);
     ("tenure_group", Object [Some "New"; Some "Regular"; Some "Loyal"; Some "Champion"]);
     ("monthly_charge_segment", Object [Some "Low"; Some "Medium"; Some "High"; Some "High"]);
     ("contract_type_code", Number [Some (q 0); Some (q 1); Some (q 2); Some (q (-1))])].

End DemoRaw.

(** ** The shape of a run of the loader *)

Module LoadShape.
Import Load LoadSpec.

Section Shape.
Variable tbl : string.
Variable df : frame.
Variable factor : Qc.
Variables batch_size max_retries : Z.

(** What the [while] loop can add to the trace for the batch [recs],
    numbered [bn], from the attempt counter [attempt] on, and how it
    ends. A retry follows a transient answer and a wait of
    [factor ^ next], where [next] is the counter of the next turn. *)
Inductive attempts (recs : list record) (bn : Z) : Z -> flow -> trace -> Prop :=
| attempts_over attempt :
    (max_retries < attempt)%Z ->
    attempts recs bn attempt Normal []
| attempts_accepted attempt :
    (attempt <= max_retries)%Z ->
    attempts recs bn attempt Normal [Insert tbl recs Accepted]
| attempts_schema attempt r :
    (attempt <= max_retries)%Z -> schema_response r = true ->
    attempts recs bn attempt Return [Insert tbl recs r; WriteLocal df]
| attempts_skipped attempt r :
    (attempt <= max_retries)%Z -> transient r = true ->
    attempts recs bn attempt Normal [Insert tbl recs r; Skipped bn]
| attempts_raised attempt r msg :
    (attempt <= max_retries)%Z -> transient r = true ->
    attempts recs bn attempt (Raise msg) [Insert tbl recs r]
| attempts_retried attempt next r fl ext :
    (attempt <= max_retries)%Z -> transient r = true ->
    (attempt < next <= max_retries)%Z ->
    (0 <= wait_for factor next)%Qc ->
    attempts recs bn next fl ext ->
    attempts recs bn attempt fl
      (Insert tbl recs r :: Sleep (wait_for factor next) :: ext).

(** What the [for] loop over the start rows can add to the trace with a
    client at hand: the attempts of one batch after the other, up to the
    first batch whose attempts do not end normally. *)
Inductive batch_loop : list Z -> flow -> trace -> Prop :=
| batch_loop_done :
    batch_loop [] Normal []
| batch_loop_next i later ext fl ext' :
    attempts (batch_records batch_size df i) (batch_no batch_size i) 0 Normal ext ->
    batch_loop later fl ext' ->
    batch_loop (i :: later) fl (ext ++ ext')
| batch_loop_stop i later fl ext :
    attempts (batch_records batch_size df i) (batch_no batch_size i) 0 fl ext ->
    fl <> Normal ->
    batch_loop (i :: later) fl ext.

End Shape.

(** The inserts of a trace that the store accepted. *)
Definition accepted (t : trace) : list (list record) :=
  omap (fun e => match e with Insert _ recs Accepted => Some recs | _ => None end) t.


(** The local copies written in a trace. *)
Definition writes (t : trace) : list frame :=
  omap (fun e => match e with WriteLocal d => Some d | _ => None end) t.

(** The batch numbers that a trace reports as given up. *)
Definition skipped (t : trace) : list Z :=
  omap (fun e => match e with Skipped bn => Some bn | _ => None end) t.

(** Some insert of the trace was answered by a schema issue. *)
Definition has_schema_issue (t : trace) : bool := existsb schema_insert t.


End LoadShape.

(** ** Reading a canonical name *)

Module NameShape.
Import PyStr NameSpec.

(** The alphabet of a canonical name: lower-case letters, digits and
    the underscore. *)
Definition plain (ch : ascii) : bool := re_lower ch || re_digit ch || is_underscore ch.

(** The letters and digits of a name, in order. *)
Definition letters_digits (s : list ascii) : list ascii := List.filter alnum s.

Definition ends_with_separator (s : list ascii) : bool := starts_with_separator (rev s).

End NameShape.

(** ** Reading the staged DataFrame *)

Module TransformShape.
Import Pandas Transform.


(** The columns that the script adds. *)
Definition derived_cols : list string :=
  ["tenure_group"; "monthly_charge_segment"; "has_internet_service";
   "is_multi_line_user"; "contract_type_code"].

(** The columns that the script drops. *)
Definition dropped_cols : list string :=
  ["InternetService_norm"; "Contract_norm"; "customerID"; "gender"].

(** A raw file on which the script runs through: the columns it reads
    are there, and the two it takes the median of are numeric. *)
Definition readable (raw : gmap string column) : Prop :=
  (exists tv, raw !! "tenure" = Some (Number tv))
  /\ (exists mv, raw !! "MonthlyCharges" = Some (Number mv))
  /\ is_Some (raw !! "TotalCharges")
  /\ is_Some (raw !! "InternetService")
  /\ is_Some (raw !! "MultipleLines")
  /\ is_Some (raw !! "Contract").


(** All the values of a numeric column are among [allowed]; another
    column is not. *)
Definition numbers_among (allowed : list Z) (c : column) : Prop :=
  match c with
  | Number vals => Forall (fun v => exists n, n ∈ allowed /\ v = Some (q n)) vals
  | _ => False
  end.

End TransformShape.

(** ** What the validator looks at *)

Module ValidateShape.
Import Pandas Transform Validate.

(** The columns that the validator reads by name. *)
Definition checked_cols : list string :=
  ["tenure"; "MonthlyCharges"; "TotalCharges";
   "tenure_group"; "monthly_charge_segment"; "contract_type_code"].

(** A column without a null. *)
Definition complete (c : column) : Prop := None ∉ values_of c.

(** The labels as the validator's sets hold them. *)
Definition tenure_labels : list value := map text labels.
Definition segment_labels : list value := map text ["Low"; "Medium"; "High"].

End ValidateShape.

(** * Properties *)

(** ** Characters and strings *)

Module PyStrFacts.
Import PyStr.

Lemma chars_str (l : list ascii) : chars (str l) = l.
Proof. apply list_ascii_of_string_of_list_ascii. Qed.

Lemma str_chars (s : string) : str (chars s) = s.
Proof. apply string_of_list_ascii_of_string. Qed.

Lemma in_range_spec lo hi c :
  in_range lo hi c = true <-> (lo <= code c <= hi)%N.
Proof. unfold in_range. rewrite andb_true_iff, !N.leb_le. tauto. Qed.

Lemma in_range_disjoint lo hi lo' hi' c :
  (hi < lo' \/ hi' < lo)%N -> in_range lo hi c = true -> in_range lo' hi' c = false.
Proof.
  intros Hd Hin. apply in_range_spec in Hin.
  apply not_true_is_false. rewrite in_range_spec. lia.
Qed.

Lemma is_underscore_spec c : is_underscore c = true <-> c = underscore.
Proof. unfold is_underscore. apply Ascii.eqb_eq. Qed.

Lemma underscore_no_upper c : is_underscore c = true -> re_upper c = false.
Proof. intros ->%is_underscore_spec. reflexivity. Qed.

(** Lower-casing neither makes nor removes an underscore. *)
Lemma is_underscore_lower c : is_underscore (lower_char c) = is_underscore c.
Proof. destruct c as [[] [] [] [] [] [] [] []]; reflexivity. Qed.

Lemma lower_no_upper s : existsb isupper s = false -> lower s = s.
Proof.
  induction s as [|c s IH]; simpl; [done|].
  intros [Hc Hs]%orb_false_iff. unfold lower_char.
  unfold isupper in Hc. rewrite Hc. f_equal. by apply IH.
Qed.

Lemma lstrip_suffix ch s : exists k, s = k ++ lstrip ch s.
Proof.
  induction s as [|c s [k IH]]; simpl; [by exists []|].
  destruct (Ascii.eqb c ch).
  - exists (c :: k). simpl. by f_equal.
  - by exists [].
Qed.

Lemma strip_infix ch s : exists k1 k2, s = k1 ++ strip ch s ++ k2.
Proof.
  unfold strip, rstrip.
  destruct (lstrip_suffix ch s) as [k1 H1].
  destruct (lstrip_suffix ch (rev (lstrip ch s))) as [k2 H2].
  exists k1, (rev k2).
  rewrite <- rev_app_distr, <- H2, rev_involutive. exact H1.
Qed.



Lemma append_nil_l (s : string) : "" +:+ s = s.
Proof. reflexivity. Qed.
Lemma append_cons (a : ascii) (s r : string) : String a s +:+ r = String a (s +:+ r).
Proof. reflexivity. Qed.
Lemma prefix_nil (h : string) : String.prefix "" h = true.
Proof. by destruct h. Qed.
Lemma prefix_cons a n b h :
  String.prefix (String a n) (String b h) = (if ascii_dec a b then String.prefix n h else false).
Proof. reflexivity. Qed.

Lemma prefix_spec (n h : string) :
  String.prefix n h = true <-> exists post, h = n +:+ post.
Proof.
  revert h. induction n as [|a n IH]; intros h.
  - rewrite prefix_nil. split; [intros _; by exists h | done].
  - destruct h as [|b h].
    + split; [done | intros [post H]; discriminate].
    + rewrite prefix_cons. destruct (ascii_dec a b) as [->|Hne].
      * rewrite IH. split; intros [post H]; exists post.
        -- by rewrite append_cons, H.
        -- rewrite append_cons in H. by injection H.
      * split; [done | intros [post H]; rewrite append_cons in H; injection H; congruence].
Qed.

Lemma contains_cons n b h :
  contains n (String b h) = String.prefix n (String b h) || contains n h.
Proof. reflexivity. Qed.

(** [needle in hay] holds exactly when [hay] is some text, then
    [needle], then some text. *)
Lemma contains_spec (n h : string) :
  contains n h = true <-> exists pre post, h = pre +:+ n +:+ post.
Proof.
  induction h as [|b h IH].
  - change (contains n "") with (String.prefix n "" || false).
    rewrite orb_false_r, prefix_spec. split.
    + intros [post H]. by exists "", post.
    + intros [pre [post H]]. destruct pre; [by exists post | discriminate].
  - rewrite contains_cons, orb_true_iff, prefix_spec, IH. split.
    + intros [[post H] | [pre [post H]]].
      * by exists "", post.
      * exists (String b pre), post. by rewrite append_cons, H.
    + intros [pre [post H]]. destruct pre as [|a pre].
      * left. by exists post.
      * right. exists pre, post. rewrite append_cons in H. by injection H.
Qed.

End PyStrFacts.

(** ** The column normalizer *)

Module NormalizerFacts.
Import PyStr PyStrFacts Load NameSpec.

Lemma upper_not_lower_or_digit c : re_upper c = true -> re_lower_or_digit c = false.
Proof.
  intros H. unfold re_lower_or_digit, re_lower, re_digit.
  rewrite !(in_range_disjoint 65 90 _ _ c) by (lia || done). done.
Qed.

Lemma sub_camel_cons2 c1 c2 rest :
  sub_camel (c1 :: c2 :: rest) =
    if re_lower_or_digit c1 && re_upper c2
    then c1 :: underscore :: c2 :: sub_camel rest
    else c1 :: sub_camel (c2 :: rest).
Proof. reflexivity. Qed.

Lemma separate_cons2 before after x y rest :
  separate before after (x :: y :: rest) =
    x :: (if before x && after y then [underscore] else [])
      ++ separate before after (y :: rest).
Proof. reflexivity. Qed.

Lemma sub_camel_no_upper s : existsb isupper s = false -> sub_camel s = s.
Proof.
  induction s as [|c1 s IH]; [done|].
  destruct s as [|c2 rest]; [done|].
  intros H. rewrite sub_camel_cons2.
  assert (re_upper c2 = false) as ->.
  { cbn in H. unfold isupper in H. by destruct (re_upper c1), (re_upper c2). }
  rewrite andb_false_r. f_equal. apply IH.
  cbn in H |- *. by destruct (isupper c1).
Qed.

(** The scan of the first substitution misses no boundary: a match
    ends on an upper-case letter, which starts no new match. *)
Lemma sub_camel_separate s :
  sub_camel s = separate re_lower_or_digit re_upper s.
Proof.
  assert (forall n s, length s <= n ->
            sub_camel s = separate re_lower_or_digit re_upper s) as Hn.
  { clear s. induction n as [|n IH]; intros s Hlen.
    - destruct s; [done | simpl in Hlen; lia].
    - destruct s as [|c1 [|c2 rest]]; [done | done |].
      rewrite sub_camel_cons2, separate_cons2. simpl in Hlen.
      destruct (re_lower_or_digit c1 && re_upper c2) eqn:Hb.
      + apply andb_true_iff in Hb as [_ Hup].
        rewrite (IH rest) by lia.
        destruct rest as [|c3 rest']; [done|].
        rewrite separate_cons2, (upper_not_lower_or_digit c2 Hup). done.
      + rewrite (IH (c2 :: rest)) by (simpl; lia). done. }
  by apply (Hn (length s)).
Qed.

(** The scan of the second substitution, read off the maximal runs: in
    the middle of a match the run in progress is already replaced. *)
Lemma sub_nonword_from_runs b s :
  sub_nonword_from b s =
    match b, runs (fun c => negb (re_word c)) s with
    | true, (true, _) :: more => concat (map emit more)
    | _, rs => concat (map emit rs)
    end.
Proof.
  revert b. induction s as [|c s IH]; intros b.
  - by destruct b.
  - cbn [sub_nonword_from runs].
    destruct (re_word c) eqn:Hw; cbn [negb].
    + rewrite (IH false).
      destruct (runs _ s) as [|[[] run] more]; cbn; by destruct b.
    + destruct b.
      * rewrite (IH true).
        destruct (runs _ s) as [|[[] run] more]; cbn; done.
      * rewrite (IH true).
        destruct (runs _ s) as [|[[] run] more]; cbn; done.
Qed.

Lemma sub_nonword_replace_runs s :
  sub_nonword s = replace_runs (fun c => negb (re_word c)) s.
Proof. unfold sub_nonword. by rewrite sub_nonword_from_runs. Qed.

(** [runs] cuts and loses nothing. *)
Lemma runs_concat cls s : concat (map snd (runs cls s)) = s.
Proof.
  induction s as [|c s IH]; [done|]. cbn [runs].
  destruct (runs cls s) as [|[b run] more]; [by inversion IH|].
  destruct (Bool.eqb b (cls c)); cbn in *; by rewrite IH.
Qed.

Lemma normalize_col_amended c : _normalize_col c = canonical_amended c.
Proof.
  unfold _normalize_col, canonical_amended, canonical.
  by rewrite sub_camel_separate, sub_nonword_replace_runs.
Qed.


(** *** Adjacent separators *)

Lemma adjacent_cons x s :
  adjacent_separators (x :: s) =
    (is_underscore x && starts_with_separator s) || adjacent_separators s.
Proof. destruct s; [by rewrite andb_false_r | done]. Qed.

Lemma apart_cons x s :
  underscores_apart (x :: s) =
    match s with
    | y :: _ => negb (is_underscore x && negb (alnum y))
                && negb (negb (alnum x) && is_underscore y)
    | [] => true
    end && underscores_apart s.
Proof. by destruct s. Qed.

Lemma re_word_alnum c : re_word c = alnum c || is_underscore c.
Proof. reflexivity. Qed.

Lemma underscore_not_alnum c : is_underscore c = true -> alnum c = false.
Proof. intros ->%is_underscore_spec. reflexivity. Qed.

Lemma nonword_not_alnum c : re_word c = false -> alnum c = false.
Proof. rewrite re_word_alnum. by intros [? _]%orb_false_iff. Qed.

(** Inside a match that began at a character next to no underscore,
    the scan emits no underscore first. *)
Lemma no_separator_after_match s x :
  alnum x = false -> underscores_apart (x :: s) = true ->
  starts_with_separator (sub_nonword_from true s) = false.
Proof.
  revert x. induction s as [|c s IH]; intros x Hx Hap; [done|].
  rewrite apart_cons in Hap. rewrite Hx in Hap. cbn [negb andb] in Hap.
  apply andb_true_iff in Hap as [Hxc Hap]. apply andb_true_iff in Hxc as [_ Hc].
  apply negb_true_iff in Hc.
  cbn [sub_nonword_from]. destruct (re_word c) eqn:Hw.
  - exact Hc.
  - apply (IH c); [by apply nonword_not_alnum | done].
Qed.

Lemma separator_first_not_alnum b s :
  starts_with_separator (sub_nonword_from b s) = true ->
  match s with c :: _ => alnum c = false | [] => False end.
Proof.
  destruct s as [|c s]; [done|]. cbn [sub_nonword_from].
  destruct (re_word c) eqn:Hw.
  - cbn. apply underscore_not_alnum.
  - intros _. by apply nonword_not_alnum.
Qed.

Lemma sub_nonword_no_adjacent b s :
  underscores_apart s = true ->
  adjacent_separators (sub_nonword_from b s) = false.
Proof.
  revert b. induction s as [|c s IH]; intros b Hap; [done|].
  pose proof Hap as Hap'. rewrite apart_cons in Hap'.
  apply andb_true_iff in Hap' as [Hhead Htail].
  cbn [sub_nonword_from]. destruct (re_word c) eqn:Hw.
  - rewrite adjacent_cons, (IH false Htail), orb_false_r.
    destruct (is_underscore c) eqn:Hus; [|done]. cbn [andb].
    apply not_true_is_false. intros Hsep.
    apply separator_first_not_alnum in Hsep.
    destruct s as [|d s]; [done|]. cbn in Hsep. cbn beta iota in Hhead.
    rewrite Hsep in Hhead. done.
  - destruct b; [by apply IH|].
    rewrite adjacent_cons, (IH true Htail), orb_false_r.
    rewrite (no_separator_after_match s c); [by rewrite andb_false_r | | done].
    by apply nonword_not_alnum.
Qed.

Lemma adjacent_app l1 l2 :
  adjacent_separators (l1 ++ l2) = false ->
  adjacent_separators l1 = false /\ adjacent_separators l2 = false.
Proof.
  induction l1 as [|x l1 IH]; [done|].
  rewrite <- app_comm_cons, !adjacent_cons.
  intros [Hx Hrest]%orb_false_iff. destruct (IH Hrest) as [H1 H2].
  split; [|done]. rewrite H1, orb_false_r.
  destruct l1; [by rewrite andb_false_r | done].
Qed.

Lemma adjacent_lower s :
  adjacent_separators (lower s) = adjacent_separators s.
Proof.
  induction s as [|x s IH]; [done|].
  unfold lower in *. rewrite map_cons, !adjacent_cons, IH, is_underscore_lower.
  destruct s; [done|]. cbn. by rewrite is_underscore_lower.
Qed.

Lemma normalize_col_no_adjacent c :
  any_upper c = false -> underscores_apart (chars c) = true ->
  adjacent_separators (chars (_normalize_col c)) = false.
Proof.
  intros Hup Hap. unfold _normalize_col.
  rewrite chars_str, adjacent_lower, (sub_camel_no_upper _ Hup).
  pose proof (sub_nonword_no_adjacent false (chars c) Hap) as Hadj.
  fold (sub_nonword (chars c)) in Hadj.
  destruct (strip_infix underscore (sub_nonword (chars c))) as (k1 & k2 & Hk).
  rewrite Hk in Hadj.
  apply adjacent_app in Hadj as [_ Hadj]. by apply adjacent_app in Hadj as [Hadj _].
Qed.

Lemma map_columns_each cols :
  map_columns cols = map (fun orig => db_name orig (_normalize_col orig)) cols.
Proof.
  unfold map_columns. induction cols as [|c cols IH]; [done|].
  cbn. by rewrite <- IH.
Qed.

End NormalizerFacts.

(** ** The batch loader *)

Module LoaderFacts.
Import PyStr PyStrFacts Load LoadSpec.

Lemma clean_app t1 t2 : clean (t1 ++ t2) <-> clean t1 /\ clean t2.
Proof. apply Forall_app. Qed.

Lemma sends_app P t1 t2 : sends P (t1 ++ t2) <-> sends P t1 /\ sends P t2.
Proof. apply Forall_app. Qed.

Lemma sends_weaken (P Q : list record -> Prop) ext :
  (forall recs, P recs -> Q recs) -> sends P ext -> sends Q ext.
Proof.
  intros HPQ H. eapply Forall_impl; [exact H|]. intros [] ?; auto.
Qed.

Lemma sleep_message_no_schema_issue :
  is_schema_issue "sleep length must be non-negative" = false.
Proof. reflexivity. Qed.

Lemma time_sleep_cases secs t :
  (time_sleep secs t = inl (t ++ [Sleep secs]) /\ ~ (secs < 0)%Qc)
  \/ (time_sleep secs t = inr "sleep length must be non-negative" /\ (secs < 0)%Qc).
Proof. unfold time_sleep. destruct (decide (secs < 0)%Qc); auto. Qed.

Section Run.
Variable remote : store.
Variable supabase : option client.
Variable table_name : string.
Variables batch_size max_retries : Z.
Variable backoff_factor : Qc.
Variable df : frame.

Local Abbreviation on_exception := (on_exception batch_size max_retries backoff_factor df).
Local Abbreviation try_insert := (try_insert remote table_name batch_size max_retries backoff_factor df).
Local Abbreviation retry_loop := (retry_loop remote table_name batch_size max_retries backoff_factor df).
Local Abbreviation for_batches := (for_batches remote supabase table_name batch_size max_retries backoff_factor df).
Local Abbreviation insert_all := (insert_all remote supabase table_name batch_size max_retries backoff_factor df).
Local Abbreviation batch_records := (batch_records batch_size df).

Lemma on_exception_extends i attempt err_str t :
  exists ext, (on_exception i attempt err_str t).2 = t ++ ext
    /\ sends (fun _ => False) ext /\ clean ext
    /\ (is_schema_issue err_str = true ->
        on_exception i attempt err_str t = (Leave Return, t ++ [WriteLocal df])).
Proof.
  unfold on_exception, write_local_copy.
  destruct (is_schema_issue err_str).
  { exists [WriteLocal df]. repeat split; repeat constructor. }
  destruct (attempt + 1 >? max_retries)%Z.
  { eexists [_]. repeat split; repeat constructor; done. }
  destruct (time_sleep_cases (wait_for backoff_factor (attempt + 1)) t)
    as [[-> _] | [-> _]].
  - eexists [_]. repeat split; repeat constructor; done.
  - exists []. rewrite app_nil_r. repeat split; try constructor; done.
Qed.

Lemma try_insert_extends i attempt recs t :
  exists ext, (try_insert i attempt recs t).2 = t ++ ext
    /\ sends (fun r => r = recs) ext
    /\ (clean ext
        \/ ((try_insert i attempt recs t).1 = Leave Return
            /\ aborted table_name df ext)).
Proof.
  unfold try_insert, write_local_copy.
  set (r := remote t table_name recs).
  assert (sends (fun r => r = recs) [Insert table_name recs r]) as Hs
    by (repeat constructor).
  destruct r as [|err_str|err_str] eqn:Hr.
  - eexists [_]. repeat split; [done|]. left. repeat constructor.
  - destruct (is_schema_issue err_str) eqn:Hschema.
    { eexists [_; _]. cbn [fst snd]. rewrite <- app_assoc. split; [done|].
      split; [repeat constructor|]. right. split; [done|].
      exists [], recs, (ErrorField err_str). repeat split; [constructor | done]. }
    assert (clean [Insert table_name recs (ErrorField err_str)]) as Hc
      by (repeat constructor; done).
    destruct (attempt + 1 >? max_retries)%Z.
    { eexists [_; _]. cbn [fst snd]. rewrite <- app_assoc. split; [done|].
      split; [repeat constructor|]. left. repeat constructor. done. }
    destruct (time_sleep_cases (wait_for backoff_factor (attempt + 1))
                (t ++ [Insert table_name recs (ErrorField err_str)]))
      as [[-> _] | [-> _]].
    + eexists [_; _]. cbn [fst snd]. rewrite <- app_assoc. split; [done|].
      split; [repeat constructor|]. left. repeat constructor. done.
    + destruct (on_exception_extends i (attempt + 1)
                  "sleep length must be non-negative"
                  (t ++ [Insert table_name recs (ErrorField err_str)]))
        as (ext & Hext & Hsends & Hclean & _).
      exists ([Insert table_name recs (ErrorField err_str)] ++ ext).
      rewrite Hext, <- app_assoc. split; [done|]. split.
      * apply sends_app. split; [done|]. apply (sends_weaken (fun _ => False)); [done | exact Hsends].
      * left. apply clean_app. done.
  - destruct (on_exception_extends i attempt err_str
                (t ++ [Insert table_name recs (Exception err_str)]))
      as (ext & Hext & Hsends & Hclean & Hret).
    exists ([Insert table_name recs (Exception err_str)] ++ ext).
    rewrite Hext, <- app_assoc. split; [done|]. split.
    { apply sends_app. split; [done|].
      apply (sends_weaken (fun _ => False)); [done | exact Hsends]. }
    destruct (is_schema_issue err_str) eqn:Hschema.
    + right. rewrite Hret in Hext |- * by done. split; [done|].
      cbn [snd] in Hext. apply app_inv_head in Hext as <-.
      exists [], recs, (Exception err_str). repeat split; [constructor | done].
    + left. apply clean_app. split; [|done]. repeat constructor. done.
Qed.


Lemma extends_step P t ext out :
  sends P ext -> clean ext ->
  extends table_name df P (t ++ ext) out -> extends table_name df P t out.
Proof.
  intros Hs Hc (ext' & Hout & Hs' & Hend).
  exists (ext ++ ext'). rewrite app_assoc. split; [done|]. split.
  { by apply sends_app. }
  destruct Hend as [Hc' | [Hret (ext0 & recs & r & Hc0 & Hr & ->)]].
  - left. by apply clean_app.
  - right. split; [done|]. exists (ext ++ ext0), recs, r.
    rewrite app_assoc. repeat split; [by apply clean_app | done].
Qed.

Lemma extends_weaken (P Q : list record -> Prop) t out :
  (forall recs, P recs -> Q recs) ->
  extends table_name df P t out -> extends table_name df Q t out.
Proof.
  intros HPQ (ext & Hout & Hs & Hend). exists ext.
  repeat split; [done | by eapply sends_weaken | done].
Qed.

Lemma retry_loop_extends fuel i attempt recs t :
  extends table_name df (fun r => r = recs) t (retry_loop fuel i attempt recs t).
Proof.
  revert attempt t. induction fuel as [|fuel IH]; intros attempt t;
    cbn [Load.retry_loop]; destruct (attempt <=? max_retries)%Z;
    try (exists []; rewrite app_nil_r; repeat split; [constructor | left; constructor]).
  destruct (try_insert_extends i attempt recs t) as (ext & Hout & Hs & Hend).
  destruct (try_insert i attempt recs t) as [[attempt'|f] t'];
    cbn [fst snd] in Hout, Hend; subst t'.
  - destruct Hend as [Hc | [? _]]; [|done].
    by apply (extends_step _ t ext).
  - exists ext. repeat split; [done|].
    destruct Hend as [Hc | [[= ->] Hab]]; [by left | by right].
Qed.

Lemma for_batches_extends starts t :
  extends table_name df (fun r => exists i, i ∈ starts /\ r = batch_records i)
    t (for_batches starts t).
Proof.
  revert t. induction starts as [|i later IH]; intros t; cbn [Load.for_batches].
  { exists []. rewrite app_nil_r. repeat split; [constructor | left; constructor]. }
  destruct supabase as [c|].
  2:{ exists [WriteLocal df]. repeat split; [repeat constructor | left; repeat constructor]. }
  destruct (retry_loop_extends (Z.to_nat (max_retries + 1)) i 0 (batch_records i) t)
    as (ext & Hout & Hs & Hend).
  assert (sends (fun r => exists j, j ∈ i :: later /\ r = batch_records j) ext) as Hs'.
  { eapply sends_weaken; [|exact Hs]. intros recs ->. exists i. split; [left | done]. }
  destruct (retry_loop _ i 0 (batch_records i) t) as [f t'];
    cbn [fst snd] in Hout, Hend; subst t'.
  destruct f; try (by exists ext).
  destruct Hend as [Hc | [? _]]; [|done].
  apply (extends_step _ t ext); [done | done |].
  eapply extends_weaken; [|apply IH].
  intros recs (j & Hj & ->). exists j. split; [by right | done].
Qed.

Lemma insert_all_extends t :
  extends table_name df
    (fun r => exists (starts : list Z) i,
                py_range 0 (total_rows df) batch_size = Some starts
                /\ i ∈ starts /\ r = batch_records i)
    t (insert_all t).
Proof.
  unfold Load.insert_all. destruct supabase as [c|] eqn:Hc.
  2:{ exists [WriteLocal df]. repeat split; [repeat constructor | left; repeat constructor]. }
  destruct (py_range 0 (total_rows df) batch_size) as [starts|] eqn:Hrange.
  2:{ exists []. rewrite app_nil_r. repeat split; [constructor | left; constructor]. }
  pose proof (for_batches_extends starts t) as Hfor. rewrite Hc in Hfor.
  eapply (extends_weaken _ (fun r => exists (starts' : list Z) i,
                Some starts = Some starts' /\ i ∈ starts' /\ r = batch_records i))
    in Hfor; [|intros recs (i & Hi & ->); by exists starts, i].
  destruct (Load.for_batches _ _ _ _ _ _ _ starts t) as [f t'].
  destruct f; try exact Hfor.
  destruct Hfor as (ext & Hout & Hs & Hend). cbn [fst snd] in Hout, Hend. subst t'.
  exists (ext ++ [Finished]). rewrite app_assoc. repeat split.
  - apply sends_app. split; [done | repeat constructor].
  - destruct Hend as [Hcl | [? _]]; [|done].
    left. apply clean_app. split; [done | repeat constructor].
Qed.

(** The loop is given enough turns: it is never cut. *)
Lemma try_insert_again i attempt recs t attempt' t' :
  try_insert i attempt recs t = (Again attempt', t') ->
  (attempt < attempt' <= max_retries)%Z.
Proof.
  assert (forall a e u, Load.on_exception batch_size max_retries backoff_factor df
                          i a e u = (Again attempt', t') ->
                        (a < attempt' <= max_retries)%Z) as Hexc.
  { intros a e u. unfold Load.on_exception.
    destruct (is_schema_issue e); [done|].
    destruct (Z.gtb_spec (a + 1) max_retries); [done|].
    destruct (time_sleep _ u); [|done]. intros [= <- _]. lia. }
  unfold Load.try_insert. destruct (remote t table_name recs) as [|e|e]; [done| |].
  - destruct (is_schema_issue e); [done|].
    destruct (Z.gtb_spec (attempt + 1) max_retries); [done|].
    destruct (time_sleep _ _).
    + intros [= <- _]. lia.
    + intros Hagain%Hexc. lia.
  - intros Hagain%Hexc. lia.
Qed.

Lemma retry_loop_not_stuck fuel i attempt recs t :
  (max_retries + 1 - attempt <= Z.of_nat fuel)%Z ->
  (retry_loop fuel i attempt recs t).1 <> Stuck.
Proof.
  revert attempt t. induction fuel as [|fuel IH]; intros attempt t Hfuel;
    cbn [Load.retry_loop]; destruct (Z.leb_spec attempt max_retries); try done.
  { lia. }
  destruct (try_insert i attempt recs t) as [[attempt'|f] t'] eqn:Htry.
  - apply try_insert_again in Htry. apply IH. lia.
  - cbn. intros ->. revert Htry. unfold Load.try_insert, Load.on_exception.
    destruct (remote t table_name recs);
      repeat (destruct (is_schema_issue _) || destruct (_ >? _)%Z
              || destruct (time_sleep _ _)); done.
Qed.

Lemma for_batches_not_stuck starts t : (for_batches starts t).1 <> Stuck.
Proof.
  revert t. induction starts as [|i later IH]; intros t; cbn [Load.for_batches]; [done|].
  destruct supabase; [|done].
  pose proof (retry_loop_not_stuck (Z.to_nat (max_retries + 1)) i 0
                (batch_records i) t) as Hloop.
  destruct (retry_loop _ i 0 (batch_records i) t) as [f t'].
  destruct f; try done. apply Hloop. lia.
Qed.

Lemma insert_all_not_stuck t : (insert_all t).1 <> Stuck.
Proof.
  unfold Load.insert_all. destruct supabase eqn:Hc; [|done].
  destruct (py_range _ _ _) as [starts|]; [|done].
  pose proof (for_batches_not_stuck starts t) as Hfor. rewrite Hc in Hfor.
  destruct (Load.for_batches _ _ _ _ _ _ _ starts t) as [f t'].
  by destruct f.
Qed.

(** *** Transient failures *)




(** *** A store that accepts everything *)

Lemma retry_loop_accepted c fuel i recs t :
  supabase = Some c ->
  (0 <= max_retries)%Z ->
  remote t table_name recs = Accepted ->
  retry_loop (S fuel) i 0 recs t = (Normal, t ++ [Insert table_name recs Accepted]).
Proof.
  intros _ Hmax Hacc. cbn [Load.retry_loop].
  destruct (Z.leb_spec 0 max_retries); [|lia].
  unfold Load.try_insert. by rewrite Hacc.
Qed.

Lemma for_batches_accepted c starts t :
  supabase = Some c ->
  (0 <= max_retries)%Z ->
  (forall t' recs, remote t' table_name recs = Accepted) ->
  for_batches starts t
  = (Normal, t ++ map (fun i => Insert table_name (batch_records i) Accepted) starts).
Proof.
  intros Hc Hmax Hacc. revert t.
  induction starts as [|i later IH]; intros t; cbn [Load.for_batches map].
  { by rewrite app_nil_r. }
  rewrite Hc. replace (Z.to_nat (max_retries + 1)) with (S (Z.to_nat max_retries)) by lia.
  rewrite (retry_loop_accepted c _ i (batch_records i) t Hc Hmax (Hacc _ _)).
  rewrite <- Hc, IH. by rewrite <- app_assoc.
Qed.

End Run.

Lemma local_copy_snoc t df : local_copy (t ++ [WriteLocal df]) = Some df.
Proof. unfold local_copy. rewrite omap_app. apply last_snoc. Qed.

(** In a trace that [extends] describes, an insert answered by a
    schema issue is followed by the local copy and by nothing else. *)
Lemma schema_issue_is_last tbl df P out pre tbl' recs r post :
  extends tbl df P [] out ->
  out.2 = pre ++ Insert tbl' recs r :: post ->
  schema_response r = true ->
  post = [WriteLocal df] /\ out.1 = Return /\ local_copy out.2 = Some df.
Proof.
  intros (ext & Hout & _ & Hend) Ht Hr. rewrite app_nil_l in Hout.
  rewrite Hout in Ht |- *. clear Hout.
  destruct Hend as [Hc | [Hret (ext0 & recs0 & r0 & Hc0 & Hr0 & ->)]].
  { rewrite Ht in Hc. apply clean_app in Hc as [_ Hc].
    inversion Hc as [|? ? He _]. cbn in He. congruence. }
  assert (post = [WriteLocal df]) as ->.
  { apply app_eq_app in Ht as [l [[H0 Hl] | [Hpre Hl]]].
    - destruct l as [|e l].
      + cbn in Hl. by injection Hl.
      + injection Hl as <- _. rewrite H0 in Hc0.
        apply clean_app in Hc0 as [_ Hc0].
        inversion Hc0 as [|? ? He _]. cbn in He. congruence.
    - destruct l as [|e [|e' l]]; simplify_eq/=; [done|].
      by destruct l. }
  repeat split; [done|]. rewrite Ht.
  change (pre ++ Insert tbl' recs r :: [WriteLocal df])
    with (pre ++ [Insert tbl' recs r] ++ [WriteLocal df]).
  by rewrite app_assoc, local_copy_snoc.
Qed.

Lemma load_to_supabase_extends df0 url key remote tbl batch_size max_retries factor :
  let df := Frame (map_columns (columns df0)) (rows df0) in
  let out := load_to_supabase (Some df0) url key remote tbl batch_size max_retries factor in
  extends tbl df
    (fun r => exists (starts : list Z) i,
                py_range 0 (total_rows df) batch_size = Some starts
                /\ i ∈ starts /\ r = batch_records batch_size df i)
    [] out
  /\ returned out.1 = true.
Proof.
  intros df out. subst out. unfold load_to_supabase. fold df.
  pose proof (insert_all_extends remote (get_supabase_client url key) tbl
                batch_size max_retries factor df []) as Hext.
  pose proof (insert_all_not_stuck remote (get_supabase_client url key) tbl
                batch_size max_retries factor df []) as Hstuck.
  destruct (insert_all _ _ _ _ _ _ _ []) as [f t].
  destruct f; try done.
  destruct Hext as (ext & Hout & Hs & Hend). cbn [fst snd] in *. subst t.
  split; [|done]. exists (ext ++ [ErrorLoading msg]). repeat split.
  - apply sends_app. split; [done | repeat constructor].
  - destruct Hend as [Hc | [? _]]; [|done].
    left. apply clean_app. split; [done | repeat constructor].
Qed.


(** *** Batching *)

Lemma iloc_batch {A} (l : list A) (i b : Z) :
  (0 <= i <= Z.of_nat (length l))%Z -> (0 < b)%Z ->
  iloc l i (i + b) = take (Z.to_nat b) (drop (Z.to_nat i) l).
Proof.
  intros Hi Hb. unfold iloc, slice_index.
  destruct (Z.ltb_spec i 0); [lia|]. destruct (Z.ltb_spec (i + b) 0); [lia|].
  rewrite (Z.min_l i) by lia.
  destruct (Z.le_ge_cases (i + b) (Z.of_nat (length l))) as [Hin|Hout].
  - rewrite Z.min_l by lia. do 2 f_equal. lia.
  - rewrite Z.min_r by lia.
    rewrite !take_ge; [done | |]; rewrite length_drop; lia.
Qed.

Lemma range_up_batches {A} (l : list A) (b : Z) fuel (i : Z) :
  (0 < b)%Z -> (0 <= i)%Z -> (Z.of_nat (length l) - i <= Z.of_nat fuel)%Z ->
  let starts := range_up fuel i (Z.of_nat (length l)) b in
  concat (map (fun j => iloc l j (j + b)) starts) = drop (Z.to_nat i) l
  /\ Z.of_nat (length starts) = Z.max 0 ((Z.of_nat (length l) - i + b - 1) / b)
  /\ Forall (fun j => (0 <= j < Z.of_nat (length l))%Z) starts.
Proof.
  intros Hb. revert i. induction fuel as [|fuel IH]; intros i Hi Hfuel; cbn zeta.
  - cbn [range_up map concat length]. rewrite drop_ge by lia. repeat split; [|constructor].
    assert ((Z.of_nat (length l) - i + b - 1) / b <= 0)%Z; [|lia].
    apply Z.lt_succ_r, Z.div_lt_upper_bound; lia.
  - cbn [range_up]. destruct (Z.ltb_spec i (Z.of_nat (length l))) as [Hlt|Hge].
    + destruct (IH (i + b)%Z) as (Hcat & Hlen & Hall); [lia | lia |].
      cbn [map concat length]. repeat split.
      * rewrite Hcat, iloc_batch by lia.
        rewrite Z2Nat.inj_add, <- drop_drop by lia. apply take_drop.
      * rewrite Nat2Z.inj_succ, Hlen.
        replace (Z.of_nat (length l) - i + b - 1)%Z
          with ((Z.of_nat (length l) - (i + b) + b - 1) + 1 * b)%Z by lia.
        rewrite Z.div_add by lia.
        assert (0 <= (Z.of_nat (length l) - (i + b) + b - 1) / b)%Z; [|lia].
        apply Z.div_pos; lia.
      * constructor; [lia | done].
    + cbn [map concat length]. rewrite drop_ge by lia. repeat split; [|constructor].
      assert ((Z.of_nat (length l) - i + b - 1) / b <= 0)%Z; [|lia].
      apply Z.lt_succ_r, Z.div_lt_upper_bound; lia.
Qed.

(** The batches of the loop cut the rows into [ceil(N/B)] consecutive
    pieces of at most [B] rows. *)
Lemma batches_partition {A} (l : list A) (b : Z) :
  (1 <= b)%Z ->
  exists bs, batches l b = Some bs
    /\ Z.of_nat (length bs) = ((Z.of_nat (length l) + b - 1) / b)%Z
    /\ Forall (fun batch => (Z.of_nat (length batch) <= b)%Z) bs
    /\ concat bs = l.
Proof.
  intros Hb. unfold batches, py_range.
  destruct (Z.eqb_spec b 0); [lia|]. destruct (Z.ltb_spec 0 b); [|lia].
  cbn [mbind option_bind]. eexists. split; [done|].
  destruct (range_up_batches l b (Z.to_nat (Z.of_nat (length l) - 0)) 0)
    as (Hcat & Hlen & Hall); [lia | lia | lia |].
  repeat split.
  - rewrite length_map, Hlen, Z.sub_0_r.
    apply Z.max_r, Z.div_pos; lia.
  - apply Forall_map. eapply Forall_impl; [exact Hall|].
    intros j Hj. cbn beta in Hj |- *. rewrite iloc_batch by lia.
    rewrite length_take. lia.
  - exact Hcat.
Qed.

Lemma inserts_map_insert tbl (payloads : list (list record)) :
  inserts (map (fun recs => Insert tbl recs Accepted) payloads) = payloads.
Proof.
  unfold inserts. induction payloads as [|recs payloads IH]; [done|].
  cbn. by rewrite IH.
Qed.

(** With both credentials set and a store that accepts every insert,
    the run sends every batch once, in order. *)
Lemma load_to_supabase_accepted df0 url key remote tbl batch_size max_retries factor bs :
  truthy url = true -> truthy key = true ->
  (0 <= max_retries)%Z ->
  (forall t recs, remote t tbl recs = Accepted) ->
  batches (rows df0) batch_size = Some bs ->
  inserts (load_to_supabase (Some df0) url key remote tbl batch_size max_retries factor).2
  = map (to_records (map_columns (columns df0))) bs.
Proof.
  intros Hurl Hkey Hmax Hacc Hbs. unfold load_to_supabase, insert_all, get_supabase_client.
  rewrite Hurl, Hkey. cbn [negb orb].
  unfold batches in Hbs. unfold total_rows. cbn [rows].
  destruct (py_range 0 (Z.of_nat (length (rows df0))) batch_size) as [starts|]; [|done].
  cbn in Hbs. injection Hbs as <-.
  erewrite for_batches_accepted; [|done..]. cbn [snd app].
  unfold inserts. rewrite omap_app. cbn [omap list_omap]. rewrite app_nil_r.
  fold (inserts (map (fun i => Insert tbl
          (batch_records batch_size
             {| columns := map_columns (columns df0); rows := rows df0 |} i) Accepted) starts)).
  rewrite <- (map_map (batch_records batch_size _) (fun recs => Insert tbl recs Accepted)).
  rewrite inserts_map_insert. unfold batch_records, to_records. cbn [rows columns].
  by rewrite map_map.
Qed.

Lemma sends_inserts P ext : sends P ext -> Forall P (inserts ext).
Proof.
  unfold sends, inserts. induction 1 as [|e ext He _ IH]; [constructor|].
  destruct e; cbn; try done. by constructor.
Qed.

End LoaderFacts.

(** ** Claims about the batch loader *)

Module LoaderClaims.
Import PyStr PyStrFacts Load LoadSpec LoaderFacts Demo.

(** C1: whenever an insert of a run is answered by a schema-mismatch
    error, in the response's error field or as a raised exception, the
    loader makes no further insert (nothing follows that insert but the
    write of the local copy), the local fallback file holds the whole
    renamed dataset with every row of the staged file, and the function
    returns to its caller. *)
Theorem schema_mismatch_aborts_to_local_copy
  (df0 : frame) (url key : option string) (remote : store) (tbl : string)
  (batch_size max_retries : Z) (factor : Qc)
  (pre post : trace) (tbl' : string) (recs : list record) (r : response) :
  let out := load_to_supabase (Some df0) url key remote tbl batch_size max_retries factor in
  let df := Frame (map_columns (columns df0)) (rows df0) in
  out.2 = pre ++ Insert tbl' recs r :: post ->
  schema_response r = true ->
  post = [WriteLocal df]
  /\ local_copy out.2 = Some df
  /\ rows df = rows df0
  /\ returned out.1 = true.
Proof.
  intros out df Ht Hr.
  destruct (load_to_supabase_extends df0 url key remote tbl batch_size max_retries factor)
    as [Hext Hret].
  destruct (schema_issue_is_last _ _ _ _ _ _ _ _ _ Hext Ht Hr) as (Hpost & _ & Hcopy).
  done.
Qed.

Lemma schema_mismatch_witness :
  let out := load_to_supabase (Some five_rows) Demo.url Demo.key
               (scripted [Accepted; Accepted; schema_error]) "churn_data" 1 3 (Qc_of_Z 2) in
  length (inserts out.2) = 3
  /\ local_copy out.2 = Some five_rows_mapped
  /\ length (rows five_rows_mapped) = 5
  /\ returned out.1 = true.
Proof.
  intros out.
  destruct (schema_mismatch_aborts_to_local_copy five_rows Demo.url Demo.key
              (scripted [Accepted; Accepted; schema_error]) "churn_data" 1 3 (Qc_of_Z 2)
              [Insert "churn_data" (batch_records 1 five_rows_mapped 0) Accepted;
               Insert "churn_data" (batch_records 1 five_rows_mapped 1) Accepted]
              [WriteLocal five_rows_mapped]
              "churn_data" (batch_records 1 five_rows_mapped 2) schema_error
              eq_refl eq_refl) as (_ & Hcopy & _ & Hret).
  split; [reflexivity|]. split; [exact Hcopy|]. split; [reflexivity | exact Hret].
Defined.


(** C4: when one of the two credentials is missing (unset or empty),
    and the staged file exists, the first call of the loader writes the
    local copy of the whole renamed dataset, makes no insert call at
    all, and returns. *)
Theorem unconfigured_store_writes_local_copy
  (df0 : frame) (url key : option string) (remote : store) (tbl : string)
  (batch_size max_retries : Z) (factor : Qc) :
  truthy url = false \/ truthy key = false ->
  let out := load_to_supabase (Some df0) url key remote tbl batch_size max_retries factor in
  let df := Frame (map_columns (columns df0)) (rows df0) in
  get_supabase_client url key = None
  /\ out = (Return, [WriteLocal df])
  /\ inserts out.2 = []
  /\ local_copy out.2 = Some df
  /\ rows df = rows df0
  /\ returned out.1 = true.
Proof.
  intros Hmissing out df.
  assert (get_supabase_client url key = None) as Hnone.
  { unfold get_supabase_client. by destruct Hmissing as [-> | ->]; rewrite ?orb_true_r. }
  assert (out = (Return, [WriteLocal df])) as Hout.
  { subst out. unfold load_to_supabase, insert_all. by rewrite Hnone. }
  rewrite Hout. done.
Qed.

Lemma unconfigured_store_witness :
  let out := load_to_supabase (Some five_rows) Demo.url (Some "")
               (always Accepted) "churn_data" 2 3 (Qc_of_Z 2) in
  (truthy Demo.url = false \/ truthy (Some "") = false)
  /\ out = (Return, [WriteLocal five_rows_mapped])
  /\ inserts out.2 = [].
Proof.
  intros out.
  assert (truthy Demo.url = false \/ truthy (Some "") = false) as Hmissing
    by (right; reflexivity).
  destruct (unconfigured_store_writes_local_copy five_rows Demo.url (Some "")
              (always Accepted) "churn_data" 2 3 (Qc_of_Z 2) Hmissing)
    as (_ & Hout & Hins & _).
  split; [exact Hmissing|]. split; [exact Hout | exact Hins].
Defined.

(** C6: for a batch size of at least 1, the loop's batches are
    [ceil(N/B)] in number (the count [k] with [(k-1)*B < N <= k*B]),
    none is longer than [B], and put end to end in order they are the
    rows of the file; every insert of a run sends the records of one of
    these batches, so with no rows no insert is attempted. *)
Theorem batches_partition_the_rows
  (df0 : frame) (url key : option string) (remote : store) (tbl : string)
  (batch_size max_retries : Z) (factor : Qc) :
  (1 <= batch_size)%Z ->
  let n := Z.of_nat (length (rows df0)) in
  let out := load_to_supabase (Some df0) url key remote tbl batch_size max_retries factor in
  exists bs, batches (rows df0) batch_size = Some bs
    /\ Z.of_nat (length bs) = ((n + batch_size - 1) / batch_size)%Z
    /\ ((Z.of_nat (length bs) - 1) * batch_size < n <= Z.of_nat (length bs) * batch_size)%Z
    /\ Forall (fun batch => (Z.of_nat (length batch) <= batch_size)%Z) bs
    /\ concat bs = rows df0
    /\ Forall (fun recs => recs ∈ map (to_records (map_columns (columns df0))) bs)
         (inserts out.2)
    /\ (rows df0 = [] -> bs = [] /\ inserts out.2 = [])
    /\ (truthy url = true -> truthy key = true -> (0 <= max_retries)%Z ->
        (forall t recs, remote t tbl recs = Accepted) ->
        inserts out.2 = map (to_records (map_columns (columns df0))) bs).
Proof.
  intros Hb n out.
  destruct (batches_partition (rows df0) batch_size Hb) as (bs & Hbs & Hlen & Hsize & Hcat).
  assert (Forall (fun recs => recs ∈ map (to_records (map_columns (columns df0))) bs)
            (inserts out.2)) as Hins.
  { destruct (load_to_supabase_extends df0 url key remote tbl batch_size max_retries factor)
      as [(ext & Hout & Hsends & _) _].
    fold out in Hout. rewrite Hout, app_nil_l.
    eapply Forall_impl; [apply (sends_inserts _ _ Hsends)|].
    intros recs (starts & i & Hrange & Hi & ->). cbn beta.
    unfold batches in Hbs. unfold total_rows in Hrange. cbn [rows] in Hrange.
    rewrite Hrange in Hbs. cbn in Hbs. injection Hbs as <-.
    unfold batch_records. cbn [rows columns].
    apply list_elem_of_fmap. eexists. split; [done|].
    apply list_elem_of_fmap. by exists i. }
  exists bs. split; [done|]. split; [done|].
  split; [|split; [done|]; split; [done|]; split; [done|]; split].
  - pose proof (Z.mul_div_le (n + batch_size - 1) batch_size).
    pose proof (Z.mul_succ_div_gt (n + batch_size - 1) batch_size).
    subst n. lia.
  - intros Hnil. rewrite Hnil in Hlen. cbn in Hlen.
    rewrite Z.div_small in Hlen by lia. destruct bs; [|done].
    split; [done|]. revert Hins. generalize (inserts out.2).
    intros [|recs sent] Hins; [done|].
    apply Forall_cons in Hins as [Hin _]. by apply elem_of_nil in Hin.
  - intros Hurl Hkey Hmax Hacc. by apply load_to_supabase_accepted.
Qed.

Lemma batches_partition_witness :
  let out := load_to_supabase (Some five_rows) Demo.url Demo.key (always Accepted)
               "churn_data" 2 3 (Qc_of_Z 2) in
  exists bs, batches (rows five_rows) 2 = Some bs
    /\ Z.of_nat (length bs) = 3%Z
    /\ concat bs = rows five_rows
    /\ Forall (fun batch => (Z.of_nat (length batch) <= 2)%Z) bs
    /\ inserts out.2 = map (to_records ["seniorcitizen"; "partner"]) bs.
Proof.
  intros out.
  destruct (batches_partition_the_rows five_rows Demo.url Demo.key (always Accepted)
              "churn_data" 2 3 (Qc_of_Z 2) ltac:(lia))
    as (bs & Hbs & Hlen & _ & Hsize & Hcat & _ & _ & Hsent).
  exists bs. split; [exact Hbs|]. split; [exact Hlen|]. split; [exact Hcat|].
  split; [exact Hsize|]. apply Hsent; [reflexivity | reflexivity | lia | reflexivity].
Defined.



(** C10: an error message counts as a schema issue exactly when it
    holds, with these very letters, one of the texts "Could not find",
    "PGRST" or "column"; so an insert answered by any error whose
    message holds "column", transient or not, is followed by the write
    of the local copy and by nothing else: no wait, no retry, no
    further insert. *)
Theorem schema_issue_is_a_substring_test :
  (forall err_str,
      is_schema_issue err_str = true <->
      (exists pre post, err_str = pre +:+ "Could not find" +:+ post)
      \/ (exists pre post, err_str = pre +:+ "PGRST" +:+ post)
      \/ (exists pre post, err_str = pre +:+ "column" +:+ post))
  /\ is_schema_issue "COLUMN pgrst could not find" = false
  /\ (forall (df0 : frame) (url key : option string) (remote : store) (tbl : string)
        (batch_size max_retries : Z) (factor : Qc)
        (pre post : trace) (tbl' : string) (recs : list record) (r : response)
        (msg before after : string),
        let out := load_to_supabase (Some df0) url key remote tbl batch_size max_retries factor in
        let df := Frame (map_columns (columns df0)) (rows df0) in
        out.2 = pre ++ Insert tbl' recs r :: post ->
        r = ErrorField msg \/ r = Exception msg ->
        msg = before +:+ "column" +:+ after ->
        post = [WriteLocal df] /\ local_copy out.2 = Some df).
Proof.
  split; [|split; [reflexivity|]].
  - intros err_str. unfold is_schema_issue.
    rewrite !orb_true_iff, !contains_spec. tauto.
  - intros df0 url key remote tbl batch_size max_retries factor pre post tbl' recs r
      msg before after out df Ht Hr Hmsg.
    assert (schema_response r = true) as Hschema.
    { assert (is_schema_issue msg = true) as His.
      { unfold is_schema_issue. rewrite !orb_true_iff, !contains_spec.
        right. by exists before, after. }
      by destruct Hr as [-> | ->]. }
    destruct (load_to_supabase_extends df0 url key remote tbl batch_size max_retries factor)
      as [Hext _].
    destruct (schema_issue_is_last _ _ _ _ _ _ _ _ _ Hext Ht Hschema) as (Hpost & _ & Hcopy).
    done.
Qed.

Lemma schema_issue_witness :
  let out := load_to_supabase (Some five_rows) Demo.url Demo.key
               (scripted [Accepted; Exception "timeout reading column statistics"])
               "churn_data" 2 3 (Qc_of_Z 2) in
  length (inserts out.2) = 2 /\ local_copy out.2 = Some five_rows_mapped.
Proof.
  intros out.
  destruct schema_issue_is_a_substring_test as (_ & _ & Hrun).
  destruct (Hrun five_rows Demo.url Demo.key
              (scripted [Accepted; Exception "timeout reading column statistics"])
              "churn_data" 2%Z 3%Z (Qc_of_Z 2)
              [Insert "churn_data" (batch_records 2 five_rows_mapped 0) Accepted]
              [WriteLocal five_rows_mapped]
              "churn_data" (batch_records 2 five_rows_mapped 2)
              (Exception "timeout reading column statistics")
              "timeout reading column statistics" "timeout reading " " statistics"
              eq_refl (or_intror eq_refl) eq_refl) as [_ Hcopy].
  split; [reflexivity | exact Hcopy].
Defined.

End LoaderClaims.

(** ** Claims about the column normalizer *)

Module NormalizerClaims.
Import PyStr PyStrFacts Load NameSpec NormalizerFacts.

(** C2 as stated fails on the name [a__b], which has no upper-case
    letter: its two underscores are no run for the second pattern, so
    the canonical name keeps them side by side, where the specified
    normal form has one separator. It also fails on [a1B]: the first
    pattern puts a separator after the digit, the specified lower-to-upper
    letter boundary does not. *)
Lemma double_underscore_survives :
  any_upper "a__b" = false
  /\ _normalize_col "a__b" = "a__b"
  /\ adjacent_separators (chars (_normalize_col "a__b")) = true
  /\ canonical_as_specified "a__b" = "a_b"
  /\ _normalize_col "a1B" = "a1_b"
  /\ canonical_as_specified "a1B" = "a1b".
Proof. repeat split. Qed.

(** C2, amended: the canonical name is obtained by inserting a
    separator wherever a lower-case letter or a digit is directly
    followed by an upper-case letter, replacing every maximal run of
    characters that are neither letters, digits nor underscores by
    exactly one separator (underscores already in the name are kept),
    stripping leading and trailing separators, and lower-casing; no two
    adjacent separators appear in the canonical name of a name that has
    no upper-case letter and in which no underscore stands next to
    another non-alphanumeric character. *)
Theorem normalize_col_canonical_form (c : string) :
  _normalize_col c = canonical_amended c
  /\ (any_upper c = false -> underscores_apart (chars c) = true ->
      adjacent_separators (chars (_normalize_col c)) = false).
Proof.
  split; [apply normalize_col_amended | apply normalize_col_no_adjacent].
Qed.

Lemma normalize_col_witness :
  _normalize_col "monthly charges ($)" = "monthly_charges"
  /\ adjacent_separators (chars (_normalize_col "monthly charges ($)")) = false.
Proof.
  destruct (normalize_col_canonical_form "monthly charges ($)") as [Hcanon Hsep].
  split; [by rewrite Hcanon | by apply Hsep].
Defined.



End NormalizerClaims.

(** ** The feature transform *)

Module TransformFacts.
Import PyStr Pandas Transform.



(** The median of a column with a value is a number. *)
Lemma median_is_Some (vals : list (option Qc)) :
  (exists x, Some x ∈ vals) -> exists m, median vals = Some m.
Proof.
  intros [x Hx]. unfold median.
  set (xs := merge_sort Qcle (omap id vals)).
  assert (length xs = length (omap id vals)) as Hlen.
  { apply Permutation_length, merge_sort_Permutation. }
  assert (0 < length xs) as Hpos.
  { rewrite Hlen. assert (x ∈ omap id vals) as Hin.
    { apply list_elem_of_omap. by exists (Some x). }
    destruct (omap id vals); [by apply elem_of_nil in Hin | cbn; lia]. }
  destruct (Nat.eqb_spec (length xs) 0) as [|_]; [lia|].
  destruct (Nat.odd (length xs)) eqn:Hodd.
  - destruct (lookup_lt_is_Some_2 xs (length xs / 2)) as [m Hm]; [|by exists m].
    apply Nat.div_lt; lia.
  - assert (2 <= length xs) as Htwo.
    { destruct (length xs) as [|[|n]]; [lia | done | lia]. }
    destruct (lookup_lt_is_Some_2 xs (length xs / 2 - 1)) as [a Ha].
    { pose proof (Nat.div_lt (length xs) 2). lia. }
    destruct (lookup_lt_is_Some_2 xs (length xs / 2)) as [b Hb].
    { apply Nat.div_lt; lia. }
    rewrite Ha, Hb. cbn. by eexists.
Qed.

Section WithParser.
Variable parse_number : string -> option Qc.

Local Abbreviation handle_missing := (handle_missing parse_number).
Local Abbreviation transform_data := (transform_data parse_number).
Local Abbreviation to_numeric_values := (to_numeric_values parse_number).

Lemma impute_median_number (df : gmap string column) col vals :
  df !! col = Some (Number vals) ->
  impute_median df col = Some (<[col := Number (fillna (median vals) vals)]> df).
Proof. intros H. unfold impute_median. by rewrite H. Qed.

(** Step 1 on a file whose two numeric columns are numeric. *)
Lemma handle_missing_result (raw : gmap string column) tv mv tc :
  raw !! "tenure" = Some (Number tv) ->
  raw !! "MonthlyCharges" = Some (Number mv) ->
  raw !! "TotalCharges" = Some tc ->
  let cv := to_numeric_values tc in
  handle_missing raw =
    Some (fill_unknown <$>
            (<["TotalCharges" := Number (fillna (median cv) cv)]>
               (<["MonthlyCharges" := Number (fillna (median mv) mv)]>
                  (<["tenure" := Number (fillna (median tv) tv)]>
                     (<["TotalCharges" := Number cv]> raw))))).
Proof.
  intros Ht Hm Hc cv. unfold Transform.handle_missing. rewrite Hc.
  cbn [mbind option_bind]. unfold num_cols. cbn [foldl]. unfold to_numeric. fold cv.
  cbn [mbind option_bind].
  rewrite (impute_median_number _ "tenure" tv); [|by simplify_map_eq].
  cbn [mbind option_bind].
  rewrite (impute_median_number _ "MonthlyCharges" mv); [|by simplify_map_eq].
  cbn [mbind option_bind].
  rewrite (impute_median_number _ "TotalCharges" cv); [|by simplify_map_eq].
  done.
Qed.


Lemma engineer_features_result (df : gmap string column) tv mv internet lines contract :
  df !! "tenure" = Some (Number tv) ->
  df !! "MonthlyCharges" = Some (Number mv) ->
  df !! "InternetService" = Some internet ->
  df !! "MultipleLines" = Some lines ->
  df !! "Contract" = Some contract ->
  engineer_features df =
    Some (delete "InternetService_norm" (delete "Contract_norm"
      (<["contract_type_code" := from_text contract_code (q (-1)) contract]>
        (<["is_multi_line_user" := from_text is_multi_line (q 0) lines]>
          (<["has_internet_service" := from_text has_internet (q 0) internet]>
            (<["monthly_charge_segment" :=
                 Object (map (fun c => Some (monthly_charge_segment c)) mv)]>
              (<["tenure_group" := Category (map tenure_group tv)]> df))))))).
Proof.
  intros Ht Hm Hi Hl Hc. unfold engineer_features, numbers.
  rewrite Ht. cbn [mbind option_bind].
  rewrite lookup_insert_ne, Hm by done. cbn [mbind option_bind].
  rewrite !lookup_insert_ne, Hi by done. cbn [mbind option_bind].
  rewrite !lookup_insert_ne, Hl by done. cbn [mbind option_bind].
  rewrite !lookup_insert_ne, Hc by done. done.
Qed.





End WithParser.
End TransformFacts.

(** ** Claims about the feature transform *)

Module TransformClaims.
Import PyStr Pandas Transform TransformFacts DemoRaw.

Lemma tenure_group_eval (t : Qc) :
  tenure_group (Some t) =
    if bool_decide (q (-1) < t)%Qc then
      if bool_decide (q 12 < t)%Qc then
        if bool_decide (q 36 < t)%Qc then
          if bool_decide (q 60 < t)%Qc then Some "Champion" else Some "Loyal"
        else Some "Regular"
      else Some "New"
    else None.
Proof.
  unfold tenure_group, cut, bins, labels. cbn [mbind option_bind searchsorted_left edge_lt].
  repeat case_bool_decide; reflexivity.
Qed.

Lemma q_lt (a b : Z) : (a < b)%Z -> (q a < q b)%Qc.
Proof. apply Z2Qc_inj_lt. Qed.

(** C3 as stated fails below the lowest edge: the tenures -1 and -5 lie
    in (-inf,12] and get no label at all. *)
Lemma tenure_below_range_unlabelled :
  tenure_group (Some (q (-1))) = None /\ tenure_group (Some (q (-5))) = None.
Proof. split; reflexivity. Qed.

(** C3, amended: the tenure group follows right-closed intervals that
    start above -1: a tenure in (-1,12] is "New", in (12,36] "Regular",
    in (36,60] "Loyal", above 60 "Champion"; the tenures
    [0, 12, 13, 36, 37, 60, 61] give New, New, Regular, Regular, Loyal,
    Loyal, Champion; every tenure above -1 gets one of the four labels,
    and a tenure of -1 or less gets none (a null). *)
Theorem tenure_group_right_closed (t : Qc) :
  ((t <= q (-1))%Qc -> tenure_group (Some t) = None)
  /\ ((q (-1) < t)%Qc /\ (t <= q 12)%Qc -> tenure_group (Some t) = Some "New")
  /\ ((q 12 < t)%Qc /\ (t <= q 36)%Qc -> tenure_group (Some t) = Some "Regular")
  /\ ((q 36 < t)%Qc /\ (t <= q 60)%Qc -> tenure_group (Some t) = Some "Loyal")
  /\ ((q 60 < t)%Qc -> tenure_group (Some t) = Some "Champion")
  /\ map tenure_group (map (fun z => Some (q z)) [0; 12; 13; 36; 37; 60; 61]%Z)
     = [Some "New"; Some "New"; Some "Regular"; Some "Regular";
        Some "Loyal"; Some "Loyal"; Some "Champion"]
  /\ ((q (-1) < t)%Qc -> exists label, tenure_group (Some t) = Some label /\ label ∈ labels).
Proof.
  assert (forall a b, (a < b)%Z -> (q b < t)%Qc -> (q a < t)%Qc) as Hup.
  { intros a b Hab Hb. eapply Qclt_trans; [by apply q_lt | done]. }
  rewrite tenure_group_eval.
  split; [|split; [|split; [|split; [|split; [|split]]]]].
  - intros Hle. rewrite bool_decide_eq_false_2; [done|]. by apply Qcle_not_lt.
  - intros [H1 H2]. rewrite (bool_decide_eq_true_2 _ H1).
    rewrite bool_decide_eq_false_2; [done|]. by apply Qcle_not_lt.
  - intros [H1 H2]. rewrite (bool_decide_eq_true_2 (q (-1) < t)%Qc) by (by apply (Hup _ 12%Z)).
    rewrite (bool_decide_eq_true_2 _ H1).
    rewrite bool_decide_eq_false_2; [done|]. by apply Qcle_not_lt.
  - intros [H1 H2]. rewrite (bool_decide_eq_true_2 (q (-1) < t)%Qc) by (by apply (Hup _ 36%Z)).
    rewrite (bool_decide_eq_true_2 (q 12 < t)%Qc) by (by apply (Hup _ 36%Z)).
    rewrite (bool_decide_eq_true_2 _ H1).
    rewrite bool_decide_eq_false_2; [done|]. by apply Qcle_not_lt.
  - intros H1. rewrite (bool_decide_eq_true_2 (q (-1) < t)%Qc) by (by apply (Hup _ 60%Z)).
    rewrite (bool_decide_eq_true_2 (q 12 < t)%Qc) by (by apply (Hup _ 60%Z)).
    rewrite (bool_decide_eq_true_2 (q 36 < t)%Qc) by (by apply (Hup _ 60%Z)).
    by rewrite (bool_decide_eq_true_2 _ H1).
  - reflexivity.
  - intros H1. rewrite (bool_decide_eq_true_2 _ H1). unfold labels.
    repeat case_bool_decide; eexists; (split; [done|]); set_solver.
Qed.

Lemma tenure_group_witness :
  tenure_group (Some (q 12)) = Some "New"
  /\ tenure_group (Some (Q2Qc (25 # 2))) = Some "Regular".
Proof.
  split.
  - destruct (tenure_group_right_closed (q 12)) as (_ & Hnew & _).
    apply Hnew. split; by vm_compute.
  - destruct (tenure_group_right_closed (Q2Qc (25 # 2))) as (_ & _ & Hregular & _).
    apply Hregular. split; by vm_compute.
Defined.



End TransformClaims.

(** ** Claims about the validator *)

Module ValidateClaims.
Import Pandas Validate DemoRaw.

Lemma valid_codes_spec (v : value) :
  v ∈ valid_codes <-> v = number 0 \/ v = number 1 \/ v = number 2.
Proof. unfold valid_codes. rewrite !elem_of_union, !elem_of_singleton. tauto. Qed.

Lemma minus_one_not_valid : number (-1) ∉ valid_codes.
Proof.
  rewrite valid_codes_spec. unfold number.
  intros [H | [H | H]]; by injection H.
Qed.

(** C9: on a staged file that has the columns the validator reads, the
    validator gives a report, and its [contract_code_ok] is true exactly
    when every observed value of [contract_type_code] is one of 0, 1 and
    2; if the sentinel -1 is among the values the check is false. *)
Theorem contract_code_ok_iff_subset
  (df : gmap string column) (supabase : option Load.client)
  (response : count_response) (codes : column) :
  is_Some (df !! "tenure") ->
  is_Some (df !! "MonthlyCharges") ->
  is_Some (df !! "TotalCharges") ->
  is_Some (df !! "tenure_group") ->
  is_Some (df !! "monthly_charge_segment") ->
  df !! "contract_type_code" = Some codes ->
  exists r, run_validation (Some df) supabase response = Some r
    /\ (contract_code_ok r = true <->
        forall v, v ∈ values_of codes -> v = number 0 \/ v = number 1 \/ v = number 2)
    /\ (number (-1) ∈ values_of codes -> contract_code_ok r = false).
Proof.
  intros [c1 H1] [c2 H2] [c3 H3] [c4 H4] [c5 H5] H6.
  unfold run_validation, required_cols. cbn. rewrite H1, H2, H3, H4, H5, H6. cbn.
  eexists. split; [reflexivity|]. cbn [contract_code_ok]. split.
  - rewrite bool_decide_eq_true. unfold unique_values. split.
    + intros Hsub v Hv. apply valid_codes_spec, Hsub. by apply elem_of_list_to_set.
    + intros Hall v Hv%elem_of_list_to_set. by apply valid_codes_spec, Hall.
  - intros Hminus. apply bool_decide_eq_false. intros Hsub.
    apply minus_one_not_valid, Hsub. unfold unique_values. by apply elem_of_list_to_set.
Qed.

Lemma contract_code_witness :
  exists r, run_validation (Some staged) None OtherResponse = Some r
    /\ contract_code_ok r = false
    /\ tenure_group_ok r = true.
Proof.
  destruct (contract_code_ok_iff_subset staged None OtherResponse
              (Number [Some (Qc_of_Z 0); Some (Qc_of_Z 1); Some (Qc_of_Z 2); Some (Qc_of_Z (-1))])
              (mk_is_Some _ _ eq_refl) (mk_is_Some _ _ eq_refl) (mk_is_Some _ _ eq_refl)
              (mk_is_Some _ _ eq_refl) (mk_is_Some _ _ eq_refl) eq_refl)
    as (r & Hrun & _ & Hminus).
  exists r. split; [exact Hrun|]. split.
  - apply Hminus. cbn. do 3 right. left.
  - vm_compute in Hrun. injection Hrun as <-. reflexivity.
Defined.

End ValidateClaims.

(** ** The models at work *)

Module Examples.
Import PyStr Load LoadSpec Demo Pandas Transform.

Example normalize_headers :
  map _normalize_col ["SeniorCitizen"; "tenure"; "StreamingTV"; "a1B"; " Monthly Charges ($)"]
  = ["senior_citizen"; "tenure"; "streaming_tv"; "a1_b"; "monthly_charges"].
Proof. reflexivity. Qed.

Example map_headers :
  map_columns ["SeniorCitizen"; "tenure"; "tenure_group"; "MonthlyCharges"; "a b-C"]
  = ["seniorcitizen"; "tenure"; "tenure_group"; "monthlycharges"; "abc"].
Proof. reflexivity. Qed.

(** The waits of the default backoff factor before the three retries. *)
Example default_waits :
  wait_for (Qc_of_Z 2) 1 = Qc_of_Z 2
  /\ wait_for (Qc_of_Z 2) 2 = Qc_of_Z 4
  /\ wait_for (Qc_of_Z 2) 3 = Qc_of_Z 8.
Proof. repeat split; apply Qc_is_canon; reflexivity. Qed.

(** Two batches that keep failing with a time-out, two retries each. *)
Example retries_then_skips :
  load_to_supabase (Some five_rows) Demo.url Demo.key (always (Exception "timeout"))
    "churn_data" 3 2 (Qc_of_Z 2)
  = (Normal,
     [Insert "churn_data" (batch_records 3 five_rows_mapped 0) (Exception "timeout");
      Sleep (wait_for (Qc_of_Z 2) 1);
      Insert "churn_data" (batch_records 3 five_rows_mapped 0) (Exception "timeout");
      Sleep (wait_for (Qc_of_Z 2) 2);
      Insert "churn_data" (batch_records 3 five_rows_mapped 0) (Exception "timeout");
      Skipped 1;
      Insert "churn_data" (batch_records 3 five_rows_mapped 3) (Exception "timeout");
      Sleep (wait_for (Qc_of_Z 2) 1);
      Insert "churn_data" (batch_records 3 five_rows_mapped 3) (Exception "timeout");
      Sleep (wait_for (Qc_of_Z 2) 2);
      Insert "churn_data" (batch_records 3 five_rows_mapped 3) (Exception "timeout");
      Skipped 2;
      Finished]).
Proof. reflexivity. Qed.

(** A negative backoff factor: the sleep raises inside the handler and
    the outer handler ends the run after the first failure. *)
Example negative_backoff_ends_the_run :
  load_to_supabase (Some five_rows) Demo.url Demo.key (always (Exception "timeout"))
    "churn_data" 3 2 (Qc_of_Z (-2))
  = (Normal,
     [Insert "churn_data" (batch_records 3 five_rows_mapped 0) (Exception "timeout");
      ErrorLoading "sleep length must be non-negative"]).
Proof. reflexivity. Qed.

Example zero_batch_size_is_caught :
  load_to_supabase (Some five_rows) Demo.url Demo.key (always Accepted)
    "churn_data" 0 3 (Qc_of_Z 2)
  = (Normal, [ErrorLoading "range() arg 3 must not be zero"]).
Proof. reflexivity. Qed.

Example missing_staged_file :
  load_to_supabase None Demo.url Demo.key (always Accepted) "churn_data" 200 3 (Qc_of_Z 2)
  = (Return, []).
Proof. reflexivity. Qed.

Example segments :
  map monthly_charge_segment
    [Some (q 10); Some (Q2Qc (2999 # 100)); Some (q 30); Some (q 70);
     Some (Q2Qc (7001 # 100)); Some (q 100)]
  = ["Low"; "Low"; "Medium"; "Medium"; "High"; "High"].
Proof. reflexivity. Qed.

Example medians :
  median [Some (q 3); None; Some (q 1); Some (q 2)] = Some (q 2)
  /\ median [Some (q 4); Some (q 1); None; Some (q 2); Some (q 3)] = Some (Q2Qc (5 # 2))
  /\ median [None; None] = None.
Proof. repeat split; by vm_compute. Qed.

End Examples.

(** ** The shape of a run *)

Module LoadShapeFacts.
Import PyStr PyStrFacts Load LoadSpec LoaderFacts LoadShape.

Lemma inserts_app t1 t2 : inserts (t1 ++ t2) = inserts t1 ++ inserts t2.
Proof. apply omap_app. Qed.

Lemma accepted_app t1 t2 : accepted (t1 ++ t2) = accepted t1 ++ accepted t2.
Proof. apply omap_app. Qed.

Lemma skipped_app t1 t2 : skipped (t1 ++ t2) = skipped t1 ++ skipped t2.
Proof. apply omap_app. Qed.


Lemma writes_app t1 t2 : writes (t1 ++ t2) = writes t1 ++ writes t2.
Proof. apply omap_app. Qed.

Lemma has_schema_issue_app t1 t2 :
  has_schema_issue (t1 ++ t2) = has_schema_issue t1 || has_schema_issue t2.
Proof. apply existsb_app. Qed.

Lemma local_copy_writes t : local_copy t = last (writes t).
Proof. reflexivity. Qed.

Section Run.
Variable remote : store.
Variable table_name : string.
Variables batch_size max_retries : Z.
Variable backoff_factor : Qc.
Variable df : frame.

Local Abbreviation try_insert :=
  (try_insert remote table_name batch_size max_retries backoff_factor df).
Local Abbreviation retry_loop :=
  (retry_loop remote table_name batch_size max_retries backoff_factor df).
Local Abbreviation batch_records := (batch_records batch_size df).
Local Abbreviation attempts := (attempts table_name df backoff_factor max_retries).
Local Abbreviation batch_loop :=
  (batch_loop table_name df backoff_factor batch_size max_retries).

(** The five ways one turn of the loop can go. *)
Lemma try_insert_cases i attempt recs t :
  let r := remote t table_name recs in
  let t1 := t ++ [Insert table_name recs r] in
  (r = Accepted /\ try_insert i attempt recs t = (Leave Normal, t1))
  \/ (schema_response r = true
      /\ try_insert i attempt recs t = (Leave Return, t1 ++ [WriteLocal df]))
  \/ (transient r = true
      /\ try_insert i attempt recs t = (Leave Normal, t1 ++ [Skipped (batch_no batch_size i)]))
  \/ (transient r = true
      /\ exists msg, try_insert i attempt recs t = (Leave (Raise msg), t1))
  \/ (transient r = true
      /\ exists next, (attempt < next <= max_retries)%Z
           /\ (0 <= wait_for backoff_factor next)%Qc
           /\ try_insert i attempt recs t
              = (Again next, t1 ++ [Sleep (wait_for backoff_factor next)])).
Proof.
  intros r t1. subst t1. unfold Load.try_insert, Load.on_exception, write_local_copy.
  fold r. destruct r as [|e|e]; [by left | |]; cbn [schema_response transient].
  - destruct (is_schema_issue e); [right; left; done|].
    right. right. cbn [negb].
    destruct (Z.gtb_spec (attempt + 1) max_retries); [left; done|].
    destruct (time_sleep_cases (wait_for backoff_factor (attempt + 1))
                (t ++ [Insert table_name recs (ErrorField e)])) as [[-> Hs] | [-> Hs]].
    + right. right. split; [done|]. exists (attempt + 1)%Z.
      split; [lia|]. split; [by apply Qcnot_lt_le | done].
    + rewrite sleep_message_no_schema_issue.
      destruct (Z.gtb_spec (attempt + 1 + 1) max_retries); [left; done|].
      destruct (time_sleep_cases (wait_for backoff_factor (attempt + 1 + 1))
                  (t ++ [Insert table_name recs (ErrorField e)])) as [[-> Hs'] | [-> Hs']].
      * right. right. split; [done|]. exists (attempt + 1 + 1)%Z.
        split; [lia|]. split; [by apply Qcnot_lt_le | done].
      * right. left. split; [done|]. by eexists.
  - destruct (is_schema_issue e); [right; left; done|].
    right. right. cbn [negb].
    destruct (Z.gtb_spec (attempt + 1) max_retries); [left; done|].
    destruct (time_sleep_cases (wait_for backoff_factor (attempt + 1))
                (t ++ [Insert table_name recs (Exception e)])) as [[-> Hs] | [-> Hs]].
    + right. right. split; [done|]. exists (attempt + 1)%Z.
      split; [lia|]. split; [by apply Qcnot_lt_le | done].
    + right. left. split; [done|]. by eexists.
Qed.

(** The loop follows the grammar of [attempts]. *)
Lemma retry_loop_attempts fuel i attempt recs t :
  (max_retries + 1 - attempt <= Z.of_nat fuel)%Z ->
  exists ext,
    (retry_loop fuel i attempt recs t).2 = t ++ ext
    /\ attempts recs (batch_no batch_size i) attempt (retry_loop fuel i attempt recs t).1 ext.
Proof.
  revert attempt t. induction fuel as [|fuel IH]; intros attempt t Hfuel;
    cbn [Load.retry_loop]; destruct (Z.leb_spec attempt max_retries) as [Hle|Hgt];
    try (exists []; rewrite app_nil_r; split; [done | by constructor]).
  { lia. }
  destruct (try_insert_cases i attempt recs t)
    as [[Hr ->] | [[Hr ->] | [[Hr ->] | [[Hr [msg ->]] | [Hr (next & Hnext & Hwait & ->)]]]]];
    cbn [fst snd].
  - eexists [_]. split; [done|]. rewrite Hr. by constructor.
  - eexists [_; _]. rewrite <- app_assoc. split; [done|]. by constructor.
  - eexists [_; _]. rewrite <- app_assoc. split; [done|]. by constructor.
  - eexists [_]. split; [done|]. by constructor.
  - destruct (IH next ((t ++ [Insert table_name recs (remote t table_name recs)])
                         ++ [Sleep (wait_for backoff_factor next)]))
      as (ext & Hout & Hatt); [lia|].
    exists (Insert table_name recs (remote t table_name recs)
              :: Sleep (wait_for backoff_factor next) :: ext).
    split.
    + rewrite Hout. by rewrite <- !app_assoc.
    + by apply attempts_retried with (next := next).
Qed.

Lemma for_batches_batch_loop c starts t :
  exists ext,
    (for_batches remote (Some c) table_name batch_size max_retries backoff_factor df
       starts t).2 = t ++ ext
    /\ batch_loop starts
         (for_batches remote (Some c) table_name batch_size max_retries backoff_factor df
            starts t).1 ext.
Proof.
  revert t. induction starts as [|i later IH]; intros t; cbn [for_batches].
  { exists []. rewrite app_nil_r. split; [done | constructor]. }
  destruct (retry_loop_attempts (Z.to_nat (max_retries + 1)) i 0 (batch_records i) t)
    as (ext & Hout & Hatt); [lia|].
  destruct (retry_loop _ i 0 (batch_records i) t) as [fl t']; cbn [fst snd] in Hout, Hatt.
  subst t'. destruct fl.
  - destruct (IH (t ++ ext)) as (ext' & Hout' & Hloop).
    exists (ext ++ ext'). rewrite app_assoc. split; [done|].
    by apply batch_loop_next.
  - exists ext. split; [done|]. by apply batch_loop_stop.
  - exists ext. split; [done|]. by apply batch_loop_stop.
  - exists ext. split; [done|]. by apply batch_loop_stop.
Qed.


(** *** What the grammar tells *)

Lemma attempts_inserts recs bn attempt fl ext :
  attempts recs bn attempt fl ext ->
  (Z.of_nat (length (inserts ext)) <= Z.max 0 (max_retries + 1 - attempt))%Z
  /\ Forall (fun sent => sent = recs) (inserts ext).
Proof.
  unfold inserts.
  induction 1 as [| | | | |attempt next r fl ext Hle Hr Hnext Hwait _ [IH1 IH2]];
    cbn [omap list_omap length]; (split; [lia | repeat constructor; done]).
Qed.


Lemma transient_not_schema r : transient r = true -> schema_response r = false.
Proof. destruct r; [done | |]; cbn; by intros ?%negb_true_iff. Qed.

Lemma attempts_writes recs bn attempt fl ext :
  attempts recs bn attempt fl ext ->
  writes ext = (if has_schema_issue ext then [df] else [])
  /\ (fl = Return <-> has_schema_issue ext = true)
  /\ (has_schema_issue ext = true -> exists ext0 r,
        ext = ext0 ++ [Insert table_name recs r; WriteLocal df]).
Proof.
  unfold has_schema_issue, writes.
  induction 1 as [| |attempt r Hle Hr|attempt r Hle Hr|attempt r msg Hle Hr
                  |attempt next r fl ext Hle Hr Hnext Hwait _ (IH1 & IH2 & IH3)];
    cbn [omap list_omap existsb schema_insert orb];
    rewrite ?(transient_not_schema _ Hr), ?Hr; cbn [orb].
  - done.
  - done.
  - split; [done|]. split; [done|]. intros _. by exists [], r.
  - done.
  - done.
  - split; [done|]. split; [done|].
    intros Hs. destruct (IH3 Hs) as (ext0 & r0 & ->).
    by exists (Insert table_name recs r :: Sleep (wait_for backoff_factor next) :: ext0), r0.
Qed.

Lemma attempts_accounted recs bn attempt ext :
  attempts recs bn attempt Normal ext ->
  (attempt <= max_retries)%Z ->
  (accepted ext = [recs] /\ skipped ext = [])
  \/ (accepted ext = [] /\ skipped ext = [bn]).
Proof.
  remember Normal as fl eqn:Hfl.
  induction 1 as [| | | | |attempt next r fl ext Hle Hr Hnext Hwait _ IH]; intros Ha;
    try discriminate.
  - lia.
  - by left.
  - right. destruct r; [done | done | done].
  - destruct r; [done | |]; cbn; apply IH; (done || lia).
Qed.

Lemma attempts_accepted_last recs bn attempt fl ext :
  attempts recs bn attempt fl ext ->
  accepted ext = [] \/ (accepted ext = [recs] /\ fl = Normal).
Proof.
  induction 1 as [| | | | |attempt next r fl ext Hle Hr Hnext Hwait _ IH]; cbn.
  - by left.
  - by right.
  - left. by destruct r.
  - left. by destruct r.
  - left. by destruct r.
  - by destruct r.
Qed.

Lemma batch_loop_inserts starts fl ext :
  batch_loop starts fl ext ->
  (Z.of_nat (length (inserts ext)) <= Z.max 0 (max_retries + 1) * Z.of_nat (length starts))%Z.
Proof.
  induction 1 as [|i later ext fl ext' Hatt _ IH|i later fl ext Hatt _].
  - cbn. lia.
  - apply attempts_inserts in Hatt as [Hn _].
    rewrite inserts_app, length_app. cbn [length]. rewrite Z.sub_0_r in Hn. lia.
  - apply attempts_inserts in Hatt as [Hn _]. cbn [length]. rewrite Z.sub_0_r in Hn. lia.
Qed.


Lemma batch_loop_writes starts fl ext :
  batch_loop starts fl ext ->
  writes ext = (if has_schema_issue ext then [df] else [])
  /\ (fl = Return <-> has_schema_issue ext = true)
  /\ (has_schema_issue ext = true -> exists ext0 recs r,
        ext = ext0 ++ [Insert table_name recs r; WriteLocal df]).
Proof.
  induction 1 as [|i later ext fl ext' Hatt _ (IH1 & IH2 & IH3)|i later fl ext Hatt _].
  - done.
  - apply attempts_writes in Hatt as (Hw & Hret & _).
    assert (has_schema_issue ext = false) as Hno.
    { apply not_true_is_false. intros Hs. by apply Hret in Hs. }
    rewrite Hno in Hw.
    rewrite writes_app, has_schema_issue_app, Hw, Hno. cbn [app orb].
    split; [done|]. split; [done|].
    intros Hs. destruct (IH3 Hs) as (ext0 & recs & r & ->).
    exists (ext ++ ext0), recs, r. by rewrite app_assoc.
  - apply attempts_writes in Hatt as (Hw & Hret & Hlast).
    split; [done|]. split; [done|].
    intros Hs. destruct (Hlast Hs) as (ext0 & r & ->). by eexists _, _, _.
Qed.

Lemma batch_loop_accepted starts fl ext :
  batch_loop starts fl ext ->
  accepted ext `sublist_of` map batch_records starts.
Proof.
  induction 1 as [|i later ext fl ext' Hatt _ IH|i later fl ext Hatt _]; cbn [map].
  - done.
  - rewrite accepted_app.
    destruct (attempts_accepted_last _ _ _ _ _ Hatt) as [-> | [-> _]]; cbn [app].
    + by apply sublist_cons.
    + by apply sublist_skip.
  - destruct (attempts_accepted_last _ _ _ _ _ Hatt) as [-> | [-> _]].
    + apply sublist_nil_l.
    + apply sublist_skip, sublist_nil_l.
Qed.

Lemma batch_loop_accounted starts ext :
  batch_loop starts Normal ext ->
  (0 <= max_retries)%Z ->
  length (accepted ext) + length (skipped ext) = length starts.
Proof.
  remember Normal as fl eqn:Hfl.
  induction 1 as [|i later ext fl ext' Hatt _ IH|i later fl ext Hatt Hne]; intros Hmax.
  - done.
  - rewrite accepted_app, skipped_app, !length_app. cbn [length].
    specialize (IH Hfl Hmax).
    destruct (attempts_accounted _ _ _ _ Hatt Hmax) as [[-> ->] | [-> ->]];
      cbn [length]; lia.
  - by subst fl.
Qed.

Lemma batch_loop_no_finished starts fl ext :
  batch_loop starts fl ext -> Finished ∉ ext.
Proof.
  assert (forall recs bn attempt fl ext,
             attempts recs bn attempt fl ext -> Finished ∉ ext) as Hatt.
  { induction 1; rewrite ?not_elem_of_cons; repeat split; try done; apply not_elem_of_nil. }
  induction 1 as [|i later ext fl ext' Ha _ IH|i later fl ext Ha _].
  - apply not_elem_of_nil.
  - rewrite elem_of_app. intros [H | H]; [by apply Hatt in Ha | done].
  - by apply Hatt in Ha.
Qed.

End Run.
End LoadShapeFacts.

(** ** More about the batch loader *)

Module LoaderExtras.
Import PyStr PyStrFacts Load LoadSpec LoaderFacts LoadShape LoadShapeFacts Demo.

Lemma range_down_none i stop step : range_down 0 i stop step = [].
Proof. reflexivity. Qed.

(** A run with both credentials set is either stopped by a zero batch
    size or follows the grammar of [batch_loop] over the start rows. *)
Lemma load_to_supabase_configured df0 url key remote tbl batch_size max_retries factor :
  truthy url = true -> truthy key = true ->
  let df := Frame (map_columns (columns df0)) (rows df0) in
  let out := load_to_supabase (Some df0) url key remote tbl batch_size max_retries factor in
  (batch_size = 0%Z /\ out = (Normal, [ErrorLoading "range() arg 3 must not be zero"]))
  \/ exists starts fl ext,
       py_range 0 (Z.of_nat (length (rows df0))) batch_size = Some starts
       /\ batch_loop tbl df factor batch_size max_retries starts fl ext
       /\ fl <> Stuck
       /\ out = match fl with
                | Normal => (Normal, ext ++ [Finished])
                | Raise msg => (Normal, ext ++ [ErrorLoading msg])
                | other => (other, ext)
                end.
Proof.
  intros Hurl Hkey df out. subst out.
  unfold load_to_supabase, insert_all, get_supabase_client.
  rewrite Hurl, Hkey. cbn [negb orb]. unfold total_rows. cbn [rows]. fold df.
  destruct (py_range 0 (Z.of_nat (length (rows df0))) batch_size) as [starts|] eqn:Hrange.
  2:{ left. split; [|done]. unfold py_range in Hrange.
      destruct (Z.eqb_spec batch_size 0); [done|]. by destruct (0 <? batch_size)%Z. }
  right.
  set (c := Client (default "" url) (default "" key)).
  destruct (for_batches_batch_loop remote tbl batch_size max_retries factor df c starts [])
    as (ext & Hout & Hloop).
  pose proof (for_batches_not_stuck remote (Some c) tbl batch_size max_retries factor df
                starts []) as Hstuck.
  destruct (for_batches _ _ _ _ _ _ _ starts []) as [fl t]; cbn [fst snd] in *. subst t.
  exists starts, fl, ext. split; [done|]. split; [done|]. split; [done|].
  by destruct fl.
Qed.

Lemma load_to_supabase_unconfigured df0 url key remote tbl batch_size max_retries factor :
  truthy url = false \/ truthy key = false ->
  load_to_supabase (Some df0) url key remote tbl batch_size max_retries factor
  = (Return, [WriteLocal (Frame (map_columns (columns df0)) (rows df0))]).
Proof.
  intros Hmissing. unfold load_to_supabase, insert_all, get_supabase_client.
  by destruct Hmissing as [-> | ->]; rewrite ?orb_true_r.
Qed.

Lemma configured_or_not url key :
  (truthy url = true /\ truthy key = true) \/ (truthy url = false \/ truthy key = false).
Proof. destruct (truthy url), (truthy key); auto. Qed.

(** X1: whatever the staged file, the credentials, the store and the
    three parameters are, [load_to_supabase] comes back to its caller:
    no exception leaves it and its loops end. *)
Theorem load_to_supabase_always_returns
  (staged : option frame) (url key : option string) (remote : store) (tbl : string)
  (batch_size max_retries : Z) (factor : Qc) :
  returned (load_to_supabase staged url key remote tbl batch_size max_retries factor).1 = true.
Proof.
  destruct staged as [df0|]; [|done].
  by destruct (load_to_supabase_extends df0 url key remote tbl batch_size max_retries factor).
Qed.






Lemma batches_starts {A} (l : list A) batch_size bs starts :
  batches l batch_size = Some bs ->
  py_range 0 (Z.of_nat (length l)) batch_size = Some starts ->
  bs = map (fun i => iloc l i (i + batch_size)) starts.
Proof. unfold batches. intros Hbs Hrange. rewrite Hrange in Hbs. cbn in Hbs. by injection Hbs. Qed.

(** X3: for a batch size of at least 1, no run makes more insert calls
    than [max_retries + 1] for each of the [ceil(N/B)] batches. *)
Theorem insert_calls_are_bounded
  (df0 : frame) (url key : option string) (remote : store) (tbl : string)
  (batch_size max_retries : Z) (factor : Qc) :
  (1 <= batch_size)%Z ->
  let n := Z.of_nat (length (rows df0)) in
  let out := load_to_supabase (Some df0) url key remote tbl batch_size max_retries factor in
  (Z.of_nat (length (inserts out.2))
   <= Z.max 0 (max_retries + 1) * ((n + batch_size - 1) / batch_size))%Z.
Proof.
  intros Hb n out.
  destruct (batches_partition (rows df0) batch_size Hb) as (bs & Hbs & Hlen & _).
  fold n in Hlen. rewrite <- Hlen.
  destruct (configured_or_not url key) as [[Hurl Hkey] | Hmissing].
  - destruct (load_to_supabase_configured df0 url key remote tbl batch_size max_retries
                factor Hurl Hkey) as [[-> _] | (starts & fl & ext & Hrange & Hloop & _ & Hout)];
      [lia|].
    fold out in Hout. rewrite (batches_starts _ _ _ _ Hbs Hrange), length_map.
    pose proof (batch_loop_inserts _ _ _ _ _ _ _ _ Hloop) as Hbound.
    rewrite Hout. destruct fl; cbn [snd]; rewrite ?inserts_app; cbn [inserts omap list_omap];
      rewrite ?app_nil_r; exact Hbound.
  - subst out. rewrite (load_to_supabase_unconfigured _ _ _ _ _ _ _ _ Hmissing).
    cbn. lia.
Qed.

Lemma insert_calls_witness :
  let out := load_to_supabase (Some five_rows) Demo.url Demo.key (always (Exception "timeout"))
               "churn_data" 2 1 (Qc_of_Z 2) in
  (Z.of_nat (length (inserts out.2)) <= 6)%Z /\ length (inserts out.2) = 6.
Proof.
  intros out. split; [|reflexivity].
  apply (insert_calls_are_bounded five_rows Demo.url Demo.key (always (Exception "timeout"))
           "churn_data" 2 1 (Qc_of_Z 2)). lia.
Defined.


(** X5: with both credentials set, the local fallback file is written
    exactly when some insert of the run was answered by a schema issue,
    and then once, as the last event of a run that ends by [return];
    transient failures, skipped batches and caught exceptions never
    write it. *)
Theorem local_copy_only_on_schema_issue
  (df0 : frame) (url key : option string) (remote : store) (tbl : string)
  (batch_size max_retries : Z) (factor : Qc) :
  truthy url = true -> truthy key = true ->
  let df := Frame (map_columns (columns df0)) (rows df0) in
  let out := load_to_supabase (Some df0) url key remote tbl batch_size max_retries factor in
  writes out.2 = (if has_schema_issue out.2 then [df] else [])
  /\ local_copy out.2 = (if has_schema_issue out.2 then Some df else None)
  /\ (out.1 = Return <-> has_schema_issue out.2 = true)
  /\ (has_schema_issue out.2 = true -> last out.2 = Some (WriteLocal df)).
Proof.
  intros Hurl Hkey df out.
  assert (writes out.2 = (if has_schema_issue out.2 then [df] else [])
          /\ (out.1 = Return <-> has_schema_issue out.2 = true)
          /\ (has_schema_issue out.2 = true -> last out.2 = Some (WriteLocal df)))
    as (Hw & Hret & Hlast).
  { destruct (load_to_supabase_configured df0 url key remote tbl batch_size max_retries
                factor Hurl Hkey) as [[_ Hout] | (starts & fl & ext & _ & Hloop & _ & Hout)];
      fold out in Hout; rewrite Hout; [done|].
    destruct (batch_loop_writes _ _ _ _ _ _ _ _ Hloop) as (Hw & Hret & Hlast).
    destruct fl; cbn [fst snd];
      rewrite ?writes_app, ?has_schema_issue_app, ?orb_false_r; cbn [writes omap list_omap];
      rewrite ?app_nil_r.
    - split; [done|]. split; [by rewrite <- Hret|]. intros Hs. by apply Hret in Hs.
    - split; [done|]. split; [done|]. intros Hs.
      destruct (Hlast Hs) as (ext0 & recs & r & ->). by rewrite last_app.
    - split; [done|]. split; [by rewrite <- Hret|]. intros Hs. by apply Hret in Hs.
    - split; [done|]. split; [done|]. intros Hs. by apply Hret in Hs. }
  split; [done|]. split; [|done].
  rewrite local_copy_writes, Hw. by destruct (has_schema_issue out.2).
Qed.

Lemma local_copy_witness :
  let out := load_to_supabase (Some five_rows) Demo.url Demo.key (always (Exception "timeout"))
               "churn_data" 2 1 (Qc_of_Z 2) in
  has_schema_issue out.2 = false /\ local_copy out.2 = None /\ length (skipped out.2) = 3.
Proof.
  intros out.
  destruct (local_copy_only_on_schema_issue five_rows Demo.url Demo.key
              (always (Exception "timeout")) "churn_data" 2 1 (Qc_of_Z 2) eq_refl eq_refl)
    as (_ & Hcopy & _).
  split; [reflexivity|]. split; [exact Hcopy | reflexivity].
Defined.

(** X6: for a batch size of at least 1, the inserts that the store
    accepted in a run are batches of the file, in file order and each at
    most once: a batch that was accepted is never sent again. *)
Theorem accepted_batches_in_order
  (df0 : frame) (url key : option string) (remote : store) (tbl : string)
  (batch_size max_retries : Z) (factor : Qc) :
  (1 <= batch_size)%Z ->
  let out := load_to_supabase (Some df0) url key remote tbl batch_size max_retries factor in
  exists bs, batches (rows df0) batch_size = Some bs
    /\ accepted out.2 `sublist_of` map (to_records (map_columns (columns df0))) bs.
Proof.
  intros Hb out.
  destruct (batches_partition (rows df0) batch_size Hb) as (bs & Hbs & _).
  exists bs. split; [done|].
  destruct (configured_or_not url key) as [[Hurl Hkey] | Hmissing].
  - destruct (load_to_supabase_configured df0 url key remote tbl batch_size max_retries
                factor Hurl Hkey) as [[-> _] | (starts & fl & ext & Hrange & Hloop & _ & Hout)];
      [lia|].
    fold out in Hout. rewrite (batches_starts _ _ _ _ Hbs Hrange), map_map.
    pose proof (batch_loop_accepted _ _ _ _ _ _ _ _ Hloop) as Hsub.
    rewrite Hout. destruct fl; cbn [snd]; rewrite ?accepted_app; cbn [accepted omap list_omap];
      rewrite ?app_nil_r; exact Hsub.
  - subst out. rewrite (load_to_supabase_unconfigured _ _ _ _ _ _ _ _ Hmissing).
    apply sublist_nil_l.
Qed.

Lemma accepted_batches_witness :
  let out := load_to_supabase (Some five_rows) Demo.url Demo.key
               (scripted [Exception "timeout"; Accepted; Exception "a"; Exception "b"])
               "churn_data" 2 1 (Qc_of_Z 2) in
  length (accepted out.2) = 2
  /\ exists bs, batches (rows five_rows) 2 = Some bs
       /\ accepted out.2 `sublist_of` map (to_records ["seniorcitizen"; "partner"]) bs.
Proof.
  intros out. split; [reflexivity|].
  apply (accepted_batches_in_order five_rows Demo.url Demo.key
           (scripted [Exception "timeout"; Accepted; Exception "a"; Exception "b"])
           "churn_data" 2 1 (Qc_of_Z 2)). lia.
Defined.

(** X7: a run that prints its final line (the event [Finished]), with a
    batch size of at least 1 and a retry count of at least 0, has dealt
    with every batch: each one was either accepted once or reported as
    skipped, none was left out silently. *)
Theorem finished_run_accounts_for_every_batch
  (df0 : frame) (url key : option string) (remote : store) (tbl : string)
  (batch_size max_retries : Z) (factor : Qc) :
  (1 <= batch_size)%Z -> (0 <= max_retries)%Z ->
  let out := load_to_supabase (Some df0) url key remote tbl batch_size max_retries factor in
  Finished ∈ out.2 ->
  exists bs, batches (rows df0) batch_size = Some bs
    /\ length (accepted out.2) + length (skipped out.2) = length bs.
Proof.
  intros Hb Hmax out Hfin.
  destruct (batches_partition (rows df0) batch_size Hb) as (bs & Hbs & _).
  exists bs. split; [done|].
  destruct (configured_or_not url key) as [[Hurl Hkey] | Hmissing].
  2:{ subst out. rewrite (load_to_supabase_unconfigured _ _ _ _ _ _ _ _ Hmissing) in Hfin.
      cbn in Hfin. apply list_elem_of_singleton in Hfin. done. }
  destruct (load_to_supabase_configured df0 url key remote tbl batch_size max_retries
              factor Hurl Hkey) as [[-> _] | (starts & fl & ext & Hrange & Hloop & _ & Hout)];
    [lia|].
  fold out in Hout. rewrite (batches_starts _ _ _ _ Hbs Hrange), length_map.
  pose proof (batch_loop_no_finished _ _ _ _ _ _ _ _ Hloop) as Hno.
  rewrite Hout in Hfin |- *. destruct fl; cbn [snd] in Hfin |- *.
  - rewrite accepted_app, skipped_app, !app_nil_r.
    by apply (batch_loop_accounted tbl batch_size max_retries factor
                {| columns := map_columns (columns df0); rows := rows df0 |}).
  - done.
  - apply elem_of_app in Hfin as [Hfin | Hfin]; [done|].
    apply list_elem_of_singleton in Hfin. done.
  - done.
Qed.

Lemma finished_run_witness :
  let out := load_to_supabase (Some five_rows) Demo.url Demo.key
               (scripted [Exception "timeout"; Accepted; Exception "a"; Exception "b"])
               "churn_data" 2 1 (Qc_of_Z 2) in
  length (accepted out.2) = 2 /\ skipped out.2 = [2%Z]
  /\ exists bs, batches (rows five_rows) 2 = Some bs
       /\ length (accepted out.2) + length (skipped out.2) = length bs.
Proof.
  intros out. split; [reflexivity|]. split; [reflexivity|].
  apply (finished_run_accounts_for_every_batch five_rows Demo.url Demo.key
           (scripted [Exception "timeout"; Accepted; Exception "a"; Exception "b"])
           "churn_data" 2 1 (Qc_of_Z 2)); [lia | lia |].
  apply list_elem_of_lookup. by exists 8.
Defined.


Lemma attempts_none tbl df factor max_retries recs bn attempt fl ext :
  attempts tbl df factor max_retries recs bn attempt fl ext ->
  (max_retries < attempt)%Z -> fl = Normal /\ ext = [].
Proof. destruct 1; intros Hlt; (done || lia). Qed.

Lemma batch_loop_none tbl df factor batch_size max_retries starts fl ext :
  batch_loop tbl df factor batch_size max_retries starts fl ext ->
  (max_retries < 0)%Z -> fl = Normal /\ ext = [].
Proof.
  induction 1 as [|i later ext fl ext' Hatt _ IH|i later fl ext Hatt Hne]; intros Hneg.
  - done.
  - destruct (attempts_none _ _ _ _ _ _ _ _ _ Hatt Hneg) as [_ ->].
    by destruct (IH Hneg) as [-> ->].
  - by destruct (attempts_none _ _ _ _ _ _ _ _ _ Hatt Hneg) as [-> _].
Qed.

(** X8: with both credentials set, a negative batch size or a negative
    retry count makes the run send nothing at all and still print its
    final line, as if all had been loaded; a batch size of zero is an
    error that the outer handler reports. In all three cases no insert
    is made and no local copy is written. *)
Theorem degenerate_parameters_insert_nothing
  (df0 : frame) (url key : option string) (remote : store) (tbl : string)
  (batch_size max_retries : Z) (factor : Qc) :
  truthy url = true -> truthy key = true ->
  (batch_size <= 0)%Z \/ (max_retries < 0)%Z ->
  let out := load_to_supabase (Some df0) url key remote tbl batch_size max_retries factor in
  (batch_size = 0%Z -> out = (Normal, [ErrorLoading "range() arg 3 must not be zero"]))
  /\ (batch_size <> 0%Z -> out = (Normal, [Finished]))
  /\ inserts out.2 = []
  /\ local_copy out.2 = None.
Proof.
  intros Hurl Hkey Hdeg out.
  destruct (load_to_supabase_configured df0 url key remote tbl batch_size max_retries
              factor Hurl Hkey) as [[-> Hout] | (starts & fl & ext & Hrange & Hloop & _ & Hout)];
    fold out in Hout.
  { by rewrite Hout. }
  assert (batch_size <> 0%Z) as Hnz.
  { intros ->. unfold py_range in Hrange. done. }
  assert (fl = Normal /\ ext = []) as [-> ->].
  { destruct (Z.lt_ge_cases max_retries 0) as [Hneg|Hpos].
    - by apply (batch_loop_none _ _ _ _ _ _ _ _ Hloop).
    - assert (starts = []) as ->.
      { unfold py_range in Hrange. destruct (Z.eqb_spec batch_size 0); [done|].
        destruct (Z.ltb_spec 0 batch_size); [lia|].
        replace (Z.to_nat (0 - Z.of_nat (length (rows df0)))) with 0%nat in Hrange by lia.
        by injection Hrange. }
      by inversion Hloop. }
  by rewrite Hout.
Qed.

Lemma degenerate_parameters_witness :
  load_to_supabase (Some five_rows) Demo.url Demo.key (always Accepted)
    "churn_data" (-200) 3 (Qc_of_Z 2) = (Normal, [Finished])
  /\ load_to_supabase (Some five_rows) Demo.url Demo.key (always Accepted)
       "churn_data" 200 (-1) (Qc_of_Z 2) = (Normal, [Finished]).
Proof.
  split.
  - destruct (degenerate_parameters_insert_nothing five_rows Demo.url Demo.key
                (always Accepted) "churn_data" (-200) 3 (Qc_of_Z 2) eq_refl eq_refl
                ltac:(lia)) as (_ & Hfin & _).
    apply Hfin. lia.
  - destruct (degenerate_parameters_insert_nothing five_rows Demo.url Demo.key
                (always Accepted) "churn_data" 200 (-1) (Qc_of_Z 2) eq_refl eq_refl
                ltac:(lia)) as (_ & Hfin & _).
    apply Hfin. lia.
Defined.



End LoaderExtras.

(** ** More about the column normalizer *)

Module NormalizerExtras.
Import PyStr PyStrFacts Load NameSpec NormalizerFacts NameShape.

Lemma alnum_lower ch : alnum (lower_char ch) = alnum ch.
Proof. destruct ch as [[] [] [] [] [] [] [] []]; reflexivity. Qed.

Lemma plain_lower ch : re_word ch = true -> plain (lower_char ch) = true.
Proof. destruct ch as [[] [] [] [] [] [] [] []]; (reflexivity || discriminate). Qed.

Lemma plain_word ch : plain ch = true -> re_word ch = true /\ re_upper ch = false.
Proof. destruct ch as [[] [] [] [] [] [] [] []]; (by split) || discriminate. Qed.

Lemma plain_alnum ch : plain ch = true -> is_underscore ch = false -> alnum ch = true.
Proof. destruct ch as [[] [] [] [] [] [] [] []]; (reflexivity || discriminate). Qed.

Lemma alnum_plain ch : alnum ch = true -> re_upper ch = false -> plain ch = true.
Proof. destruct ch as [[] [] [] [] [] [] [] []]; (reflexivity || discriminate). Qed.

(** *** What each step does to the letters and digits *)

Lemma letters_sub_camel s : letters_digits (sub_camel s) = letters_digits s.
Proof.
  rewrite sub_camel_separate. unfold letters_digits.
  induction s as [|x s IH]; [done|].
  cbn [separate]. cbn [List.filter]. rewrite List.filter_app, IH.
  assert (List.filter alnum
            match s with
            | [] => []
            | y :: _ => if re_lower_or_digit x && re_upper y then [underscore] else []
            end = []) as ->.
  { destruct s as [|y s']; [done|]. by destruct (re_lower_or_digit x && re_upper y). }
  done.
Qed.

Lemma letters_sub_nonword b s : letters_digits (sub_nonword_from b s) = letters_digits s.
Proof.
  unfold letters_digits. revert b. induction s as [|c s IH]; intros b; [done|].
  cbn [sub_nonword_from List.filter]. destruct (re_word c) eqn:Hw.
  - cbn [List.filter]. by rewrite IH.
  - rewrite (nonword_not_alnum c Hw). destruct b; [apply IH|].
    cbn [List.filter]. change (alnum underscore) with false. cbn iota. apply IH.
Qed.

Lemma letters_lstrip s : letters_digits (lstrip underscore s) = letters_digits s.
Proof.
  unfold letters_digits. induction s as [|c s IH]; [done|]. cbn [lstrip].
  destruct (Ascii.eqb_spec c underscore) as [->|]; [|done].
  rewrite IH. cbn [List.filter]. by change (alnum underscore) with false.
Qed.

Lemma letters_strip s : letters_digits (strip underscore s) = letters_digits s.
Proof.
  unfold strip, rstrip.
  transitivity (letters_digits (lstrip underscore s)); [|apply letters_lstrip].
  generalize (lstrip underscore s). intros l. unfold letters_digits.
  rewrite List.filter_rev. fold (letters_digits (lstrip underscore (rev l))).
  rewrite letters_lstrip. unfold letters_digits. by rewrite List.filter_rev, rev_involutive.
Qed.

Lemma letters_lower s : letters_digits (lower s) = lower (letters_digits s).
Proof.
  unfold letters_digits, lower. induction s as [|c s IH]; [done|].
  cbn [map List.filter]. rewrite alnum_lower. destruct (alnum c); cbn [map]; by rewrite IH.
Qed.

(** *** The alphabet and the ends of a canonical name *)

Lemma sub_nonword_word b s : Forall (fun ch => re_word ch = true) (sub_nonword_from b s).
Proof.
  revert b. induction s as [|c s IH]; intros b; [constructor|].
  cbn [sub_nonword_from]. destruct (re_word c) eqn:Hw.
  - by constructor.
  - destruct b; [apply IH|]. by constructor.
Qed.

Lemma lstrip_starts ch s :
  match lstrip ch s with c :: _ => Ascii.eqb c ch = false | [] => True end.
Proof.
  induction s as [|c s IH]; [done|]. cbn [lstrip].
  by destruct (Ascii.eqb c ch) eqn:Hc.
Qed.

Lemma lstrip_id ch s :
  match s with c :: _ => Ascii.eqb c ch = false | [] => True end -> lstrip ch s = s.
Proof. destruct s as [|c s]; [done|]. cbn [lstrip]. by intros ->. Qed.

Lemma strip_ends s :
  starts_with_separator (strip underscore s) = false
  /\ ends_with_separator (strip underscore s) = false.
Proof.
  unfold strip, rstrip, ends_with_separator. rewrite rev_involutive.
  pose proof (lstrip_starts underscore (rev (lstrip underscore s))) as Hend.
  split.
  - pose proof (lstrip_starts underscore s) as Hstart.
    destruct (lstrip_suffix underscore (rev (lstrip underscore s))) as [k Hk].
    apply (f_equal (@rev ascii)) in Hk. rewrite rev_involutive, rev_app_distr in Hk.
    destruct (rev (lstrip underscore (rev (lstrip underscore s)))) as [|c l]; [done|].
    rewrite Hk in Hstart. exact Hstart.
  - by destruct (lstrip underscore (rev (lstrip underscore s))).
Qed.

Lemma starts_lower s : starts_with_separator (lower s) = starts_with_separator s.
Proof. destruct s; [done|]. apply is_underscore_lower. Qed.

Lemma ends_lower s : ends_with_separator (lower s) = ends_with_separator s.
Proof.
  unfold ends_with_separator, lower. rewrite <- map_rev. apply starts_lower.
Qed.

Lemma normalize_col_shape c :
  let s := chars (_normalize_col c) in
  Forall (fun ch => plain ch = true) s
  /\ starts_with_separator s = false
  /\ ends_with_separator s = false.
Proof.
  cbn zeta. unfold _normalize_col. rewrite chars_str, starts_lower, ends_lower.
  split; [|apply strip_ends].
  unfold lower. apply Forall_map.
  destruct (strip_infix underscore (sub_nonword (sub_camel (chars c)))) as (k1 & k2 & Hk).
  pose proof (sub_nonword_word false (sub_camel (chars c))) as Hw.
  fold (sub_nonword (sub_camel (chars c))) in Hw. rewrite Hk in Hw.
  apply Forall_app in Hw as [_ Hw]. apply Forall_app in Hw as [Hw _].
  eapply Forall_impl; [exact Hw|]. intros ch. apply plain_lower.
Qed.

(** A name over the plain alphabet that neither starts nor ends with a
    separator is its own canonical name. *)
Lemma normalize_col_fixed s :
  Forall (fun ch => plain ch = true) s ->
  starts_with_separator s = false -> ends_with_separator s = false ->
  _normalize_col (str s) = str s.
Proof.
  intros Hplain Hstart Hend. unfold _normalize_col. rewrite chars_str.
  assert (existsb isupper s = false) as Hup.
  { apply not_true_is_false. intros (ch & Hin & Hch)%existsb_exists.
    rewrite Forall_forall in Hplain. apply list_elem_of_In in Hin.
    destruct (plain_word ch (Hplain ch Hin)) as [_ Hno]. unfold isupper in Hch. congruence. }
  rewrite (sub_camel_no_upper s Hup).
  assert (sub_nonword s = s) as ->.
  { unfold sub_nonword. clear Hstart Hend Hup.
    induction Hplain as [|ch s Hch _ IH]; [done|].
    cbn [sub_nonword_from]. destruct (plain_word ch Hch) as [-> _]. by rewrite IH. }
  assert (strip underscore s = s) as ->.
  { unfold strip, rstrip. rewrite (lstrip_id underscore s).
    - rewrite lstrip_id; [apply rev_involutive|].
      unfold ends_with_separator, starts_with_separator, is_underscore in Hend.
      by destruct (rev s).
    - unfold starts_with_separator, is_underscore in Hstart. by destruct s. }
  by rewrite (lower_no_upper s Hup).
Qed.


Lemma plain_no_upper s : Forall (fun ch => plain ch = true) s -> existsb isupper s = false.
Proof.
  intros Hplain. apply not_true_is_false. intros (ch & Hin & Hch)%existsb_exists.
  rewrite Forall_forall in Hplain. apply list_elem_of_In in Hin.
  destruct (plain_word ch (Hplain ch Hin)) as [_ Hno]. unfold isupper in Hch. congruence.
Qed.

Lemma remove_underscores_plain s :
  Forall (fun ch => plain ch = true) s -> remove_char underscore s = letters_digits s.
Proof.
  unfold remove_char, letters_digits. induction 1 as [|ch s Hch _ IH]; [done|].
  cbn [List.filter]. rewrite IH. fold (is_underscore ch).
  destruct (is_underscore ch) eqn:Hus; cbn [negb].
  - by rewrite (underscore_not_alnum ch Hus).
  - by rewrite (plain_alnum ch Hch Hus).
Qed.

Lemma letters_normalize c :
  letters_digits (chars (_normalize_col c)) = lower (letters_digits (chars c)).
Proof.
  unfold _normalize_col. rewrite chars_str, letters_lower, letters_strip.
  unfold sub_nonword. by rewrite letters_sub_nonword, letters_sub_camel.
Qed.

(** X10: a canonical name holds only lower-case letters, digits and
    underscores, and neither starts nor ends with an underscore. *)
Theorem canonical_name_alphabet (c : string) :
  let s := chars (_normalize_col c) in
  Forall (fun ch => plain ch = true) s
  /\ starts_with_separator s = false
  /\ ends_with_separator s = false.
Proof. apply normalize_col_shape. Qed.

(** X11: the letters and digits of a name all survive in its canonical
    name, in their order and lower-cased, and nothing else but
    underscores is added; so the canonical name is empty exactly for a
    name without any letter or digit. *)
Theorem letters_and_digits_survive (c : string) :
  letters_digits (chars (_normalize_col c)) = lower (letters_digits (chars c))
  /\ (_normalize_col c = "" <-> letters_digits (chars c) = []).
Proof.
  split; [apply letters_normalize|]. split.
  - intros Hempty. pose proof (letters_normalize c) as Hl. rewrite Hempty in Hl.
    destruct (letters_digits (chars c)); [done | discriminate].
  - intros Hnone. pose proof (letters_normalize c) as Hl. rewrite Hnone in Hl.
    destruct (normalize_col_shape c) as (Hplain & Hstart & _).
    rewrite <- (str_chars (_normalize_col c)).
    destruct (chars (_normalize_col c)) as [|ch s]; [done|].
    apply Forall_cons in Hplain as [Hch _]. cbn in Hstart.
    unfold letters_digits in Hl. cbn [List.filter] in Hl.
    by rewrite (plain_alnum ch Hch Hstart) in Hl.
Qed.

(** X12: the name the loader gives a column whose original name has an
    upper-case letter is exactly the letters and digits of the original
    name, lower-cased: two such names that differ only by case or by
    other characters get the same name. *)
Theorem mixed_case_name_is_its_letters_and_digits (orig : string) :
  any_upper orig = true ->
  db_name orig (_normalize_col orig) = str (lower (letters_digits (chars orig))).
Proof.
  intros Hup. unfold db_name. rewrite Hup. f_equal.
  destruct (normalize_col_shape orig) as (Hplain & _).
  rewrite (remove_underscores_plain _ Hplain). apply letters_normalize.
Qed.

Lemma mixed_case_name_witness :
  db_name "Monthly_Charges ($)" (_normalize_col "Monthly_Charges ($)") = "monthlycharges"
  /\ db_name "MonthlyCharges" (_normalize_col "MonthlyCharges") = "monthlycharges".
Proof.
  split.
  - by rewrite (mixed_case_name_is_its_letters_and_digits "Monthly_Charges ($)" eq_refl).
  - by rewrite (mixed_case_name_is_its_letters_and_digits "MonthlyCharges" eq_refl).
Defined.

(** X13: normalizing a canonical name changes nothing. *)
Theorem normalize_col_idempotent (c : string) :
  _normalize_col (_normalize_col c) = _normalize_col c.
Proof.
  destruct (normalize_col_shape c) as (Hplain & Hstart & Hend).
  set (n := _normalize_col c) in *. rewrite <- (str_chars n).
  by apply normalize_col_fixed.
Qed.

(** X14: renaming a header that the loader already renamed changes
    nothing, so a local copy can be loaded again under the same column
    names. *)
Theorem map_columns_idempotent (cols : list string) :
  map_columns (map_columns cols) = map_columns cols.
Proof.
  rewrite !map_columns_each, map_map. apply map_ext. intros orig.
  set (m := db_name orig (_normalize_col orig)).
  assert (Forall (fun ch => plain ch = true) (chars m)
          /\ starts_with_separator (chars m) = false
          /\ ends_with_separator (chars m) = false) as (Hplain & Hstart & Hend).
  { subst m. unfold db_name. destruct (any_upper orig); [|apply normalize_col_shape].
    destruct (normalize_col_shape orig) as (Hp & _).
    rewrite chars_str, (remove_underscores_plain _ Hp).
    assert (Forall (fun ch => plain ch = true /\ is_underscore ch = false)
              (letters_digits (chars (_normalize_col orig)))) as Hld.
    { unfold letters_digits. apply Forall_forall. intros ch Hin.
      apply list_elem_of_In, filter_In in Hin as [Hin Hal].
      rewrite Forall_forall in Hp. split; [by apply Hp, list_elem_of_In|].
      destruct (is_underscore ch) eqn:Hus; [|done].
      by rewrite (underscore_not_alnum ch Hus) in Hal. }
    split; [by eapply Forall_impl; [exact Hld | intros ? []]|].
    unfold ends_with_separator.
    assert (Forall (fun ch => plain ch = true /\ is_underscore ch = false)
              (rev (letters_digits (chars (_normalize_col orig))))) as Hrev.
    { apply Forall_forall. intros ch Hin. rewrite Forall_forall in Hld.
      apply Hld. by apply list_elem_of_In, in_rev, list_elem_of_In. }
    split.
    - destruct Hld as [|? ? [_ ?] _]; done.
    - destruct Hrev as [|? ? [_ ?] _]; done. }
  assert (_normalize_col m = m) as Hfix.
  { clearbody m. rewrite <- (str_chars m). by apply normalize_col_fixed. }
  unfold db_name at 1. rewrite Hfix.
  assert (any_upper m = false) as -> by (by apply plain_no_upper).
  done.
Qed.

End NormalizerExtras.

(** ** More about the feature transform *)

Module TransformExtras.
Import PyStr Pandas Transform TransformFacts TransformShape DemoRaw.

Section WithParser.
Variable parse_number : string -> option Qc.

Local Abbreviation handle_missing := (handle_missing parse_number).
Local Abbreviation transform_data := (transform_data parse_number).
Local Abbreviation to_numeric_values := (to_numeric_values parse_number).

(** The staged DataFrame, column by column. *)
Lemma transform_data_columns (raw : gmap string column) tv mv tc internet lines contract :
  raw !! "tenure" = Some (Number tv) ->
  raw !! "MonthlyCharges" = Some (Number mv) ->
  raw !! "TotalCharges" = Some tc ->
  raw !! "InternetService" = Some internet ->
  raw !! "MultipleLines" = Some lines ->
  raw !! "Contract" = Some contract ->
  let cv := to_numeric_values tc in
  exists out,
    transform_data raw = Some out
    /\ forall name,
         out !! name =
           if decide ("customerID" = name) then None
           else if decide ("gender" = name) then None
           else if decide ("InternetService_norm" = name) then None
           else if decide ("Contract_norm" = name) then None
           else if decide ("contract_type_code" = name)
             then Some (from_text contract_code (q (-1)) (fill_unknown contract))
           else if decide ("is_multi_line_user" = name)
             then Some (from_text is_multi_line (q 0) (fill_unknown lines))
           else if decide ("has_internet_service" = name)
             then Some (from_text has_internet (q 0) (fill_unknown internet))
           else if decide ("monthly_charge_segment" = name)
             then Some (Object (map (fun c => Some (monthly_charge_segment c))
                                  (fillna (median mv) mv)))
           else if decide ("tenure_group" = name)
             then Some (Category (map tenure_group (fillna (median tv) tv)))
           else if decide ("TotalCharges" = name)
             then Some (Number (fillna (median cv) cv))
           else if decide ("MonthlyCharges" = name)
             then Some (Number (fillna (median mv) mv))
           else if decide ("tenure" = name)
             then Some (Number (fillna (median tv) tv))
           else fill_unknown <$> raw !! name.
Proof.
  intros Ht Hm Hc Hi Hl Hct cv.
  unfold Transform.transform_data.
  rewrite (handle_missing_result parse_number raw tv mv tc Ht Hm Hc). fold cv.
  cbn [mbind option_bind].
  set (base := <["TotalCharges" := Number (fillna (median cv) cv)]> _).
  erewrite (engineer_features_result (fill_unknown <$> base)
              (fillna (median tv) tv) (fillna (median mv) mv)
              (fill_unknown internet) (fill_unknown lines) (fill_unknown contract));
    [| by (subst base; rewrite lookup_fmap; simplify_map_eq) ..].
  cbn [mbind option_bind]. eexists. split; [done|]. intros name. unfold drop_fields.
  rewrite !lookup_delete, !lookup_insert, lookup_fmap. subst base.
  rewrite !lookup_insert.
  repeat (case_decide; [done|]).
  repeat case_decide; done.
Qed.

Lemma readable_inv (raw : gmap string column) :
  readable raw ->
  exists tv mv tc internet lines contract,
    raw !! "tenure" = Some (Number tv)
    /\ raw !! "MonthlyCharges" = Some (Number mv)
    /\ raw !! "TotalCharges" = Some tc
    /\ raw !! "InternetService" = Some internet
    /\ raw !! "MultipleLines" = Some lines
    /\ raw !! "Contract" = Some contract.
Proof.
  intros ([tv Ht] & [mv Hm] & [tc Hc] & [internet Hi] & [lines Hl] & [contract Hct]).
  by exists tv, mv, tc, internet, lines, contract.
Qed.

Lemma impute_median_Some (df : gmap string column) col out :
  impute_median df col = Some out -> exists vals, df !! col = Some (Number vals).
Proof. unfold impute_median. destruct (df !! col) as [[vals| |]|]; [by eexists | done..]. Qed.

Lemma transform_data_readable (raw out : gmap string column) :
  transform_data raw = Some out -> readable raw.
Proof.
  unfold Transform.transform_data, Transform.handle_missing.
  destruct (raw !! "TotalCharges") as [tc|] eqn:Hc; [|done]. cbn [mbind option_bind].
  unfold num_cols. cbn [foldl mbind option_bind].
  destruct (impute_median _ "tenure") as [d1|] eqn:H1; [|done]. cbn [mbind option_bind].
  destruct (impute_median d1 "MonthlyCharges") as [d2|] eqn:H2; [|done]. cbn [mbind option_bind].
  destruct (impute_median d2 "TotalCharges") as [d3|] eqn:H3; [|done]. cbn [mbind option_bind].
  pose proof (impute_median_Some _ _ _ H1) as [tv Ht]. rewrite lookup_insert_ne in Ht by done.
  pose proof (impute_median_Some _ _ _ H2) as [mv Hm].
  unfold impute_median in H1. rewrite lookup_insert_ne, Ht in H1 by done.
  injection H1 as <-. rewrite !lookup_insert_ne in Hm by done.
  unfold impute_median in H2. rewrite !lookup_insert_ne, Hm in H2 by done.
  injection H2 as <-.
  unfold impute_median in H3. rewrite !lookup_insert_ne, lookup_insert_eq in H3 by done.
  injection H3 as <-.
  unfold engineer_features, numbers.
  rewrite lookup_fmap. rewrite !lookup_insert_ne, lookup_insert_eq by done.
  cbn [fmap option_fmap option_map fill_unknown mbind option_bind].
  rewrite lookup_insert_ne, lookup_fmap by done.
  rewrite !lookup_insert_ne, lookup_insert_eq by done.
  cbn [fmap option_fmap option_map fill_unknown mbind option_bind].
  rewrite !lookup_insert_ne, lookup_fmap, !lookup_insert_ne by done.
  destruct (raw !! "InternetService") as [internet|] eqn:Hi; [|done].
  cbn [fmap option_fmap option_map mbind option_bind].
  rewrite !lookup_insert_ne, lookup_fmap, !lookup_insert_ne by done.
  destruct (raw !! "MultipleLines") as [lines|] eqn:Hl; [|done].
  cbn [fmap option_fmap option_map mbind option_bind].
  rewrite !lookup_insert_ne, lookup_fmap, !lookup_insert_ne by done.
  destruct (raw !! "Contract") as [contract|] eqn:Hct; [|done].
  intros _. unfold readable. rewrite Hi, Hl, Hct. repeat split; by eexists.
Qed.


Local Ltac table Htab :=
  rewrite Htab; repeat (case_decide; [done|]); try done.

Lemma column_length_fill c : column_length (fill_unknown c) = column_length c.
Proof. destruct c; cbn; unfold fillna; by rewrite ?length_map. Qed.

Lemma column_length_from_text f miss c : column_length (from_text f miss c) = column_length c.
Proof. destruct c; cbn; by rewrite length_map. Qed.

Lemma from_text_among f miss allowed c :
  (forall v, exists n, n ∈ allowed /\ f v = q n) ->
  (exists n, n ∈ allowed /\ miss = q n) ->
  numbers_among allowed (from_text f miss c).
Proof.
  intros Hf (n & Hn & ->). destruct c as [vals|vals|vals]; cbn; apply Forall_map, Forall_forall.
  - intros v _. by exists n.
  - intros v _. destruct (Hf v) as (m & Hm & ->). by exists m.
  - intros v _. destruct (Hf v) as (m & Hm & ->). by exists m.
Qed.

Lemma has_internet_flag v : exists n, n ∈ [0; 1]%Z /\ has_internet v = q n.
Proof.
  unfold has_internet. case_bool_decide; [exists 1%Z | exists 0%Z];
    (split; [|done]); repeat constructor.
Qed.

Lemma is_multi_line_flag v : exists n, n ∈ [0; 1]%Z /\ is_multi_line v = q n.
Proof.
  unfold is_multi_line. case_bool_decide; [exists 1%Z | exists 0%Z];
    (split; [|done]); repeat constructor.
Qed.

Lemma contract_code_range v : exists n, n ∈ [-1; 0; 1; 2]%Z /\ contract_code v = q n.
Proof.
  unfold contract_code, contract_map.
  repeat case_bool_decide; cbn [default];
    [exists 0%Z | exists 1%Z | exists 2%Z | exists (-1)%Z]; (split; [|done]);
    repeat constructor.
Qed.


(** X16: in the staged DataFrame the identifying columns [customerID]
    and [gender] and the two helper columns are gone, the five derived
    columns are there, and every other column is there exactly when the
    raw file has it. *)
Theorem staged_columns (raw out : gmap string column) :
  transform_data raw = Some out ->
  (forall name, name ∈ dropped_cols -> out !! name = None)
  /\ (forall name, name ∈ derived_cols -> is_Some (out !! name))
  /\ (forall name, name ∉ dropped_cols -> name ∉ derived_cols ->
        is_Some (out !! name) <-> is_Some (raw !! name)).
Proof.
  intros Hout.
  destruct (readable_inv raw (transform_data_readable raw out Hout))
    as (tv & mv & tc & internet & lines & contract & Ht & Hm & Hc & Hi & Hl & Hct).
  destruct (transform_data_columns raw tv mv tc internet lines contract Ht Hm Hc Hi Hl Hct)
    as (out' & Hout' & Htab).
  rewrite Hout in Hout'. injection Hout' as <-.
  split; [|split].
  - intros name Hname. rewrite Htab. unfold dropped_cols in Hname.
    repeat (apply elem_of_cons in Hname as [-> | Hname]; [by repeat (case_decide; [done|])|]).
    by apply elem_of_nil in Hname.
  - intros name Hname. rewrite Htab. unfold derived_cols in Hname.
    repeat (apply elem_of_cons in Hname as [-> | Hname]; [by repeat (case_decide; [done|])|]).
    by apply elem_of_nil in Hname.
  - intros name Hdrop Hder. rewrite Htab. unfold dropped_cols in Hdrop. unfold derived_cols in Hder.
    repeat (apply not_elem_of_cons in Hdrop as [? Hdrop]).
    repeat (apply not_elem_of_cons in Hder as [? Hder]).
    repeat (case_decide; [done|]).
    case_decide; [subst name; by rewrite Hc|].
    case_decide; [subst name; by rewrite Hm|].
    case_decide; [subst name; by rewrite Ht|].
    by rewrite fmap_is_Some.
Qed.

(** X17: the transform neither drops nor adds a row: when all columns of
    the raw file have [n] values, so have all columns of the staged
    DataFrame, the derived ones included. *)
Theorem transform_keeps_row_count (raw out : gmap string column) (n : nat) :
  transform_data raw = Some out ->
  (forall name c, raw !! name = Some c -> column_length c = n) ->
  forall name c, out !! name = Some c -> column_length c = n.
Proof.
  intros Hout Hraw name c.
  destruct (readable_inv raw (transform_data_readable raw out Hout))
    as (tv & mv & tc & internet & lines & contract & Ht & Hm & Hc & Hi & Hl & Hct).
  destruct (transform_data_columns raw tv mv tc internet lines contract Ht Hm Hc Hi Hl Hct)
    as (out' & Hout' & Htab).
  rewrite Hout in Hout'. injection Hout' as <-.
  pose proof (Hraw _ _ Ht) as Hnt. pose proof (Hraw _ _ Hm) as Hnm.
  pose proof (Hraw _ _ Hc) as Hnc. pose proof (Hraw _ _ Hi) as Hni.
  pose proof (Hraw _ _ Hl) as Hnl. pose proof (Hraw _ _ Hct) as Hnct.
  cbn in Hnt, Hnm.
  assert (length (to_numeric_values tc) = n) as Hncv.
  { destruct tc; cbn in Hnc |- *; by rewrite ?length_map. }
  rewrite Htab.
  repeat (case_decide; [done|]).
  repeat (case_decide;
          [intros [= <-]; cbn [column_length];
           rewrite ?column_length_from_text, ?column_length_fill, ?length_map;
           unfold fillna; rewrite ?length_map; done|]).
  destruct (raw !! name) as [c0|] eqn:Hname; [|done].
  intros [= <-]. rewrite column_length_fill. by apply (Hraw name).
Qed.

(** X18: in the staged DataFrame the two derived labels of a row are
    those of the imputed values of the same row: [tenure_group] is the
    group of the row's [tenure], [monthly_charge_segment] the segment of
    the row's [MonthlyCharges], which is "Low" below 30, "Medium" from
    30 to 70, and "High" above 70 and for a charge that is still null. *)
Theorem labels_follow_imputed_values (raw out : gmap string column) :
  transform_data raw = Some out ->
  (exists tenure charges,
      out !! "tenure" = Some (Number tenure)
      /\ out !! "MonthlyCharges" = Some (Number charges)
      /\ out !! "tenure_group" = Some (Category (map tenure_group tenure))
      /\ out !! "monthly_charge_segment"
         = Some (Object (map (fun c => Some (monthly_charge_segment c)) charges)))
  /\ (forall c, (c < q 30)%Qc -> monthly_charge_segment (Some c) = "Low")
  /\ (forall c, (q 30 <= c)%Qc -> (c <= q 70)%Qc -> monthly_charge_segment (Some c) = "Medium")
  /\ (forall c, (q 70 < c)%Qc -> monthly_charge_segment (Some c) = "High")
  /\ monthly_charge_segment None = "High".
Proof.
  intros Hout.
  destruct (readable_inv raw (transform_data_readable raw out Hout))
    as (tv & mv & tc & internet & lines & contract & Ht & Hm & Hc & Hi & Hl & Hct).
  destruct (transform_data_columns raw tv mv tc internet lines contract Ht Hm Hc Hi Hl Hct)
    as (out' & Hout' & Htab).
  rewrite Hout in Hout'. injection Hout' as <-.
  split; [|split; [|split; [|split]]].
  - exists (fillna (median tv) tv), (fillna (median mv) mv).
    split; [|split; [|split]]; by table Htab.
  - intros c Hlow. unfold monthly_charge_segment. by rewrite bool_decide_eq_true_2.
  - intros c H30 H70. unfold monthly_charge_segment.
    rewrite bool_decide_eq_false_2 by (by apply Qcle_not_lt).
    by rewrite bool_decide_eq_true_2.
  - intros c H70. unfold monthly_charge_segment.
    rewrite bool_decide_eq_false_2.
    + rewrite bool_decide_eq_false_2; [done | by apply Qclt_not_le].
    + apply Qcle_not_lt, Qclt_le_weak. eapply Qclt_trans; [|exact H70].
      by apply Z2Qc_inj_lt.
  - done.
Qed.

(** X19: the three features derived from text columns hold no null and
    only their codes: [has_internet_service] and [is_multi_line_user]
    are 0 or 1, [contract_type_code] is -1, 0, 1 or 2; a row whose
    [Contract] is missing in the raw file gets the code -1. *)
Theorem text_features_hold_only_their_codes (raw out : gmap string column) :
  transform_data raw = Some out ->
  (exists c, out !! "has_internet_service" = Some c /\ numbers_among [0; 1]%Z c)
  /\ (exists c, out !! "is_multi_line_user" = Some c /\ numbers_among [0; 1]%Z c)
  /\ (exists c, out !! "contract_type_code" = Some c /\ numbers_among [-1; 0; 1; 2]%Z c)
  /\ (forall vals i, raw !! "Contract" = Some (Object vals) -> vals !! i = Some None ->
        exists codes, out !! "contract_type_code" = Some (Number codes)
                      /\ codes !! i = Some (Some (q (-1)))).
Proof.
  intros Hout.
  destruct (readable_inv raw (transform_data_readable raw out Hout))
    as (tv & mv & tc & internet & lines & contract & Ht & Hm & Hc & Hi & Hl & Hct).
  destruct (transform_data_columns raw tv mv tc internet lines contract Ht Hm Hc Hi Hl Hct)
    as (out' & Hout' & Htab).
  rewrite Hout in Hout'. injection Hout' as <-.
  split; [|split; [|split]].
  - exists (from_text has_internet (q 0) (fill_unknown internet)). split; [by table Htab|].
    apply from_text_among; [apply has_internet_flag|]. exists 0%Z. split; [|done]. repeat constructor.
  - exists (from_text is_multi_line (q 0) (fill_unknown lines)). split; [by table Htab|].
    apply from_text_among; [apply is_multi_line_flag|]. exists 0%Z. split; [|done]. repeat constructor.
  - exists (from_text contract_code (q (-1)) (fill_unknown contract)). split; [by table Htab|].
    apply from_text_among; [apply contract_code_range|]. exists (-1)%Z. split; [|done].
    repeat constructor.
  - intros vals i Hvals Hnull. rewrite Hct in Hvals. injection Hvals as ->.
    exists (map (fun v => Some (contract_code v)) (fillna (Some "Unknown") vals)).
    split; [by table Htab|].
    unfold fillna. rewrite !list_lookup_fmap, Hnull. done.
Qed.

End WithParser.

Lemma demo_raw_runs :
  exists out, transform_data parse raw = Some out.
Proof.
  destruct (transform_data_columns parse raw tenure charges total _ _ _
              eq_refl eq_refl eq_refl eq_refl eq_refl eq_refl) as (out & Hout & _).
  by exists out.
Qed.

Lemma staged_columns_witness :
  exists out,
    transform_data parse raw = Some out
    /\ out !! "customerID" = None
    /\ out !! "gender" = None
    /\ is_Some (out !! "contract_type_code")
    /\ (is_Some (out !! "Contract") <-> is_Some (raw !! "Contract"))
    /\ (is_Some (out !! "Churn") <-> is_Some (raw !! "Churn")).
Proof.
  destruct demo_raw_runs as (out & Hout). exists out. split; [exact Hout|].
  destruct (staged_columns parse raw out Hout) as (Hdropped & Hderived & Hkept).
  split; [apply Hdropped; do 2 right; left|].
  split; [apply Hdropped; do 3 right; left|].
  split; [apply Hderived; do 4 right; left|].
  split.
  - apply Hkept; repeat (apply not_elem_of_cons; split; [done|]); apply not_elem_of_nil.
  - apply Hkept; repeat (apply not_elem_of_cons; split; [done|]); apply not_elem_of_nil.
Defined.

Lemma transform_keeps_row_count_witness :
  exists out,
    transform_data parse raw = Some out
    /\ forall name c, out !! name = Some c -> column_length c = 4%nat.
Proof.
  destruct demo_raw_runs as (out & Hout). exists out. split; [exact Hout|].
  apply (transform_keeps_row_count parse raw out 4 Hout).
  intros name c. unfold raw. cbn [list_to_map foldr uncurry].
  repeat (rewrite lookup_insert_Some; intros [[_ <-] | [_ Hname]]; [reflexivity|];
          revert Hname).
  by rewrite lookup_empty.
Defined.

Lemma labels_follow_imputed_values_witness :
  exists out tenure charges,
    transform_data parse raw = Some out
    /\ out !! "tenure" = Some (Number tenure)
    /\ out !! "MonthlyCharges" = Some (Number charges)
    /\ out !! "tenure_group" = Some (Category (map tenure_group tenure))
    /\ out !! "monthly_charge_segment"
       = Some (Object (map (fun c => Some (monthly_charge_segment c)) charges)).
Proof.
  destruct demo_raw_runs as (out & Hout).
  destruct (labels_follow_imputed_values parse raw out Hout)
    as ((tenure & charges & Htenure & Hcharges & Hgroup & Hsegment) & _).
  by exists out, tenure, charges.
Defined.

Lemma text_features_witness :
  exists out codes,
    transform_data parse raw = Some out
    /\ out !! "contract_type_code" = Some (Number codes)
    /\ codes !! 2%nat = Some (Some (q (-1)))
    /\ numbers_among [-1; 0; 1; 2]%Z (Number codes).
Proof.
  destruct demo_raw_runs as (out & Hout).
  destruct (text_features_hold_only_their_codes parse raw out Hout)
    as (_ & _ & (c & Hc & Hamong) & Hnull).
  destruct (Hnull [Some "Month-to-month"; Some "Two year "; None; Some "x"] 2%nat
              eq_refl eq_refl) as (codes & Hcodes & Hcode).
  exists out, codes. split; [exact Hout|]. split; [exact Hcodes|]. split; [exact Hcode|].
  rewrite Hcodes in Hc. injection Hc as <-. exact Hamong.
Defined.

End TransformExtras.

(** ** More on the validator *)

Module ValidateExtras.
Import Pandas Transform Validate ValidateShape ValidateClaims DemoRaw.

Lemma count_null_zero {A} (vals : list (option A)) :
  count_null vals = 0%nat <-> None ∉ vals.
Proof.
  unfold count_null. induction vals as [|[x|] vals IH]; cbn.
  - split; [intros _; apply not_elem_of_nil | done].
  - rewrite IH, not_elem_of_cons. split; [by intros ? | by intros [_ ?]].
  - split; [done|]. intros H. exfalso. apply H. left.
Qed.

Lemma isnull_sum_complete (c : column) : isnull_sum c = 0%nat <-> complete c.
Proof.
  unfold complete. destruct c as [vals|vals|vals]; cbn [isnull_sum values_of];
    rewrite count_null_zero, list_elem_of_fmap;
    (split; intros H; [intros ([x|] & Hx & Hin); [done | by apply H]
                      | intros Hin; apply H; by exists None]).
Qed.

Lemma run_validation_columns (df : gmap string column) supabase response r :
  run_validation (Some df) supabase response = Some r ->
  exists tenure charges total groups segments codes,
    df !! "tenure" = Some tenure /\ df !! "MonthlyCharges" = Some charges
    /\ df !! "TotalCharges" = Some total /\ df !! "tenure_group" = Some groups
    /\ df !! "monthly_charge_segment" = Some segments
    /\ df !! "contract_type_code" = Some codes
    /\ r = {|
         missing_values :=
           bool_decide (sum_list [isnull_sum tenure; isnull_sum charges; isnull_sum total] = 0%nat);
         local_row_count := Z.of_nat (column_length tenure);
         supabase_row_count_seen := supabase_row_count supabase response;
         row_count_match :=
           bool_decide (Some (Z.of_nat (column_length tenure)) = supabase_row_count supabase response);
         tenure_group_ok := bool_decide (expected_tenure_groups = unique_values groups);
         monthly_segment_ok := bool_decide (expected_segments = unique_values segments);
         contract_code_ok := bool_decide (unique_values codes ⊆ valid_codes)
       |}.
Proof.
  unfold run_validation, required_cols. cbn.
  destruct (df !! "tenure") as [tenure|]; [|done]. cbn.
  destruct (df !! "MonthlyCharges") as [charges|]; [|done]. cbn.
  destruct (df !! "TotalCharges") as [total|]; [|done]. cbn.
  destruct (df !! "tenure_group") as [groups|]; [|done]. cbn.
  destruct (df !! "monthly_charge_segment") as [segments|]; [|done]. cbn.
  destruct (df !! "contract_type_code") as [codes|]; [|done]. cbn.
  intros [= <-]. by exists tenure, charges, total, groups, segments, codes.
Qed.

Lemma run_validation_runs (df : gmap string column) supabase response :
  (forall c, c ∈ checked_cols -> is_Some (df !! c)) ->
  is_Some (run_validation (Some df) supabase response).
Proof.
  intros Hall.
  destruct (Hall "tenure") as [c1 H1]; [left|].
  destruct (Hall "MonthlyCharges") as [c2 H2]; [right; left|].
  destruct (Hall "TotalCharges") as [c3 H3]; [do 2 right; left|].
  destruct (Hall "tenure_group") as [c4 H4]; [do 3 right; left|].
  destruct (Hall "monthly_charge_segment") as [c5 H5]; [do 4 right; left|].
  destruct (Hall "contract_type_code") as [c6 H6]; [do 5 right; left|].
  unfold run_validation, required_cols. cbn. rewrite H1, H2, H3, H4, H5, H6. cbn.
  by eexists.
Qed.

Lemma expected_set_spec (expected : list value) (c : column) :
  list_to_set (C := gset value) expected = unique_values c
  <-> forall v, v ∈ values_of c <-> v ∈ expected.
Proof.
  unfold unique_values. split.
  - intros Heq v. rewrite <- (elem_of_list_to_set (C := gset value) v (values_of c)), <- Heq.
    by rewrite elem_of_list_to_set.
  - intros Hall. apply set_eq. intros v. rewrite !elem_of_list_to_set. by rewrite Hall.
Qed.

Lemma expected_tenure_groups_list :
  expected_tenure_groups = list_to_set tenure_labels.
Proof.
  apply set_eq. intros v. unfold expected_tenure_groups, tenure_labels, labels.
  rewrite elem_of_list_to_set. cbn [map].
  rewrite !elem_of_union, !elem_of_singleton, !elem_of_cons, elem_of_nil. tauto.
Qed.

Lemma expected_segments_list :
  expected_segments = list_to_set segment_labels.
Proof.
  apply set_eq. intros v. unfold expected_segments, segment_labels.
  rewrite elem_of_list_to_set. cbn [map].
  rewrite !elem_of_union, !elem_of_singleton, !elem_of_cons, elem_of_nil. tauto.
Qed.

(** X20: the validator gives its results exactly when the staged file
    exists and has the six columns it reads by name; without the file it
    returns early, and a missing column ends it with a KeyError. *)
Theorem validation_reports_exactly_with_its_columns
  (staged : option (gmap string column)) (supabase : option Load.client)
  (response : count_response) :
  is_Some (run_validation staged supabase response)
  <-> exists df, staged = Some df /\ forall c, c ∈ checked_cols -> is_Some (df !! c).
Proof.
  split.
  - intros [r Hr]. destruct staged as [df|]; [|done]. exists df. split; [done|].
    destruct (run_validation_columns df supabase response r Hr)
      as (c1 & c2 & c3 & c4 & c5 & c6 & H1 & H2 & H3 & H4 & H5 & H6 & _).
    intros c Hc. unfold checked_cols in Hc.
    repeat (apply elem_of_cons in Hc as [-> | Hc]; [by eexists|]).
    by apply elem_of_nil in Hc.
  - intros (df & -> & Hall). by apply run_validation_runs.
Qed.

(** X21: [missing_values] is true exactly when none of [tenure],
    [MonthlyCharges] and [TotalCharges] holds a null; a null in any
    other column does not count. The local row count is the length of
    the frame. *)
Theorem missing_values_means_no_null
  (df : gmap string column) (supabase : option Load.client)
  (response : count_response) (r : report) :
  run_validation (Some df) supabase response = Some r ->
  (missing_values r = true
   <-> forall name c, name ∈ required_cols -> df !! name = Some c -> complete c)
  /\ (forall c, df !! "tenure" = Some c -> local_row_count r = Z.of_nat (column_length c)).
Proof.
  intros Hr.
  destruct (run_validation_columns df supabase response r Hr)
    as (c1 & c2 & c3 & c4 & c5 & c6 & H1 & H2 & H3 & H4 & H5 & H6 & ->).
  cbn [missing_values local_row_count]. split.
  - rewrite bool_decide_eq_true. cbn [sum_list foldr]. unfold sum_list_with.
    split.
    + intros Hsum name c Hname Hc. apply isnull_sum_complete.
      unfold required_cols in Hname. cbn in Hsum.
      repeat (apply elem_of_cons in Hname as [-> | Hname];
              [rewrite ?H1, ?H2, ?H3 in Hc; injection Hc as <-; lia|]).
      by apply elem_of_nil in Hname.
    + intros Hall.
      pose proof (proj2 (isnull_sum_complete c1) (Hall "tenure" c1 ltac:(left) H1)).
      pose proof (proj2 (isnull_sum_complete c2)
                    (Hall "MonthlyCharges" c2 ltac:(right; left) H2)).
      pose proof (proj2 (isnull_sum_complete c3)
                    (Hall "TotalCharges" c3 ltac:(do 2 right; left) H3)).
      cbn. lia.
  - intros c Hc. rewrite H1 in Hc. by injection Hc as <-.
Qed.

(** X22: [row_count_match] is true only when both SUPABASE_URL and
    SUPABASE_KEY are set and the count query answers with a count, or a
    list of rows, of the size of the staged file; an unconfigured store,
    a failing query and an answer without a count all give false. A
    count in a dictionary answer goes before the length of its data. *)
Theorem row_count_match_needs_a_remote_count
  (df : gmap string column) (url key : option string)
  (response : count_response) (r : report) :
  run_validation (Some df) (Load.get_supabase_client url key) response = Some r ->
  (Load.truthy url = false \/ Load.truthy key = false ->
     supabase_row_count_seen r = None /\ row_count_match r = false)
  /\ (forall e, response = CountRaises e ->
        supabase_row_count_seen r = None /\ row_count_match r = false)
  /\ (forall count rows, response = DictResponse (Some count) rows ->
        Load.truthy url = true -> Load.truthy key = true ->
        (row_count_match r = true <-> count = local_row_count r))
  /\ (row_count_match r = true ->
        Load.truthy url = true /\ Load.truthy key = true
        /\ (response = HasCount (Some (local_row_count r))
            \/ (exists rows, response = DictResponse (Some (local_row_count r)) rows)
            \/ (exists n, response = DictResponse None (Some n)
                          /\ local_row_count r = Z.of_nat n))).
Proof.
  intros Hr.
  destruct (run_validation_columns df _ response r Hr)
    as (c1 & c2 & c3 & c4 & c5 & c6 & H1 & H2 & H3 & H4 & H5 & H6 & ->).
  cbn [supabase_row_count_seen row_count_match local_row_count].
  unfold Load.get_supabase_client.
  split; [|split; [|split]].
  - intros [-> | ->]; rewrite ?orb_true_r; cbn; by rewrite ?bool_decide_eq_false_2.
  - intros e ->. unfold supabase_row_count.
    destruct (negb (Load.truthy url) || negb (Load.truthy key)); by rewrite bool_decide_eq_false_2.
  - intros count rows -> -> ->. cbn. rewrite bool_decide_eq_true.
    split; [by intros [= <-] | by intros ->].
  - rewrite bool_decide_eq_true.
    destruct (Load.truthy url); [|done]. destruct (Load.truthy key); [|done]. cbn.
    intros Hcount. split; [done|]. split; [done|].
    destruct response as [[count|] | [count|] [n|] | |]; try done.
    + left. by injection Hcount as <-.
    + right; left. exists (Some n). by injection Hcount as <-.
    + right; left. exists None. by injection Hcount as <-.
    + right; right. exists n. split; [done|]. by injection Hcount as <-.
Qed.

(** X23: a label check is true exactly when the values observed in its
    column are the expected labels, each of them and nothing else:
    [tenure_group_ok] for "New", "Regular", "Loyal" and "Champion",
    [monthly_segment_ok] for "Low", "Medium" and "High". One null in
    the column, or one label that no row has, makes the check false. *)
Theorem label_checks_need_exactly_the_labels
  (df : gmap string column) (supabase : option Load.client)
  (response : count_response) (r : report) (groups segments : column) :
  run_validation (Some df) supabase response = Some r ->
  df !! "tenure_group" = Some groups ->
  df !! "monthly_charge_segment" = Some segments ->
  (tenure_group_ok r = true <-> forall v, v ∈ values_of groups <-> v ∈ tenure_labels)
  /\ (monthly_segment_ok r = true <-> forall v, v ∈ values_of segments <-> v ∈ segment_labels)
  /\ (None ∈ values_of groups -> tenure_group_ok r = false)
  /\ (forall l, l ∈ tenure_labels -> l ∉ values_of groups -> tenure_group_ok r = false).
Proof.
  intros Hr Hg Hs.
  destruct (run_validation_columns df supabase response r Hr)
    as (c1 & c2 & c3 & c4 & c5 & c6 & H1 & H2 & H3 & H4 & H5 & H6 & ->).
  rewrite Hg in H4. injection H4 as <-. rewrite Hs in H5. injection H5 as <-.
  cbn [tenure_group_ok monthly_segment_ok].
  assert (bool_decide (expected_tenure_groups = unique_values groups) = true
          <-> forall v, v ∈ values_of groups <-> v ∈ tenure_labels) as Hgroups.
  { by rewrite bool_decide_eq_true, expected_tenure_groups_list, expected_set_spec. }
  split; [exact Hgroups|]. split; [|split].
  - by rewrite bool_decide_eq_true, expected_segments_list, expected_set_spec.
  - intros Hnull. apply not_true_is_false. intros Hok.
    apply (proj1 Hgroups Hok) in Hnull. unfold tenure_labels, labels in Hnull. cbn in Hnull.
    repeat (apply elem_of_cons in Hnull as [Hnull | Hnull]; [done|]).
    by apply elem_of_nil in Hnull.
  - intros l Hl Hnot. apply not_true_is_false. intros Hok.
    apply Hnot. by apply (proj1 Hgroups Hok).
Qed.

Lemma staged_runs supabase response :
  exists r, run_validation (Some staged) supabase response = Some r
            /\ local_row_count r = 4%Z.
Proof. by eexists. Qed.

Lemma missing_values_witness :
  exists r,
    run_validation (Some staged) None OtherResponse = Some r
    /\ missing_values r = false
    /\ local_row_count r = 4%Z.
Proof.
  destruct (staged_runs None OtherResponse) as (r & Hr & _). exists r. split; [exact Hr|].
  destruct (missing_values_means_no_null staged None OtherResponse r Hr) as (Hmissing & Hrows).
  split.
  - apply not_true_is_false. intros Htrue.
    apply (proj1 Hmissing Htrue "MonthlyCharges" (Number charges)); [right; left | reflexivity|].
    cbn. do 2 right. left.
  - apply (Hrows (Number [Some (q 0); Some (q 13); Some (q 40); Some (q 61)])). reflexivity.
Defined.

Lemma row_count_match_witness :
  exists r,
    run_validation (Some staged) (Load.get_supabase_client (Some "u") (Some "k"))
      (DictResponse (Some 4%Z) (Some 7%nat)) = Some r
    /\ row_count_match r = true.
Proof.
  destruct (staged_runs (Load.get_supabase_client (Some "u") (Some "k"))
              (DictResponse (Some 4%Z) (Some 7%nat))) as (r & Hr & Hrows).
  exists r. split; [exact Hr|].
  destruct (row_count_match_needs_a_remote_count staged (Some "u") (Some "k")
              (DictResponse (Some 4%Z) (Some 7%nat)) r Hr) as (_ & _ & Hdict & _).
  apply (Hdict 4%Z (Some 7%nat) eq_refl eq_refl eq_refl).
  by symmetry.
Defined.

Lemma label_checks_witness :
  exists r,
    run_validation (Some staged) None OtherResponse = Some r
    /\ tenure_group_ok r = true.
Proof.
  destruct (staged_runs None OtherResponse) as (r & Hr & _). exists r. split; [exact Hr|].
  destruct (label_checks_need_exactly_the_labels staged None OtherResponse r
              (Object [Some "New"; Some "Regular"; Some "Loyal"; Some "Champion"])
              (Object [Some "Low"; Some "Medium"; Some "High"; Some "High"])
              Hr eq_refl eq_refl) as (Hgroups & _).
  apply Hgroups. intros v. reflexivity.
Defined.

End ValidateExtras.

(** ** The transform's output under the validator *)

Module PipelineExtras.
Import PyStr Pandas Transform TransformFacts TransformClaims TransformShape TransformExtras.
Import Validate ValidateShape ValidateClaims ValidateExtras DemoRaw.

Lemma median_Some_inv (vals : list (option Qc)) m :
  median vals = Some m -> exists x, Some x ∈ vals.
Proof.
  unfold median. destruct (omap id vals) as [|x xs] eqn:Hxs; [done|]. intros _.
  exists x. assert (x ∈ omap id vals) as Hin by (rewrite Hxs; left).
  apply list_elem_of_omap in Hin as ([y|] & Hy & Hid); [|done].
  cbn in Hid. by injection Hid as ->.
Qed.

(** A column keeps a null through the imputation only when it has
    nothing else. *)
Lemma imputed_null (vals : list (option Qc)) :
  None ∉ fillna (median vals) vals <-> (None ∈ vals -> exists x, Some x ∈ vals).
Proof.
  unfold fillna. rewrite list_elem_of_fmap. split.
  - intros Hnot Hnull. destruct (median vals) as [m|] eqn:Hm; [by eapply median_Some_inv|].
    exfalso. apply Hnot. by exists None.
  - intros Hsome ([x|] & Hx & Hin); [done|].
    destruct (median_is_Some vals (Hsome Hin)) as [m Hm]. by rewrite Hm in Hx.
Qed.


Lemma segment_label (c : option Qc) :
  monthly_charge_segment c ∈ ["Low"; "Medium"; "High"].
Proof.
  destruct c as [c|]; cbn; [|do 2 right; left].
  repeat case_bool_decide; [left | right; left | do 2 right; left].
Qed.

Lemma tenure_group_label (t : option Qc) l :
  tenure_group t = Some l -> l ∈ labels.
Proof.
  destruct t as [t|]; [|done]. rewrite tenure_group_eval.
  repeat case_bool_decide; intros [= <-]; unfold labels;
    [do 3 right; left | do 2 right; left | right; left | left].
Qed.

Lemma fillna_length {A} (value : option A) vals : length (fillna value vals) = length vals.
Proof. unfold fillna. by rewrite length_map. Qed.

Section WithParser.
Variable parse_number : string -> option Qc.

Local Abbreviation transform_data := (transform_data parse_number).
Local Abbreviation to_numeric_values := (to_numeric_values parse_number).

(** What the validator sees of the transform's output. *)
Lemma validated_output (raw out : gmap string column) supabase response :
  transform_data raw = Some out ->
  exists tv mv tc contract,
    raw !! "tenure" = Some (Number tv)
    /\ raw !! "MonthlyCharges" = Some (Number mv)
    /\ raw !! "TotalCharges" = Some tc
    /\ raw !! "Contract" = Some contract
    /\ out !! "tenure" = Some (Number (fillna (median tv) tv))
    /\ out !! "MonthlyCharges" = Some (Number (fillna (median mv) mv))
    /\ run_validation (Some out) supabase response = Some {|
         missing_values :=
           bool_decide
             (sum_list [count_null (fillna (median tv) tv);
                        count_null (fillna (median mv) mv);
                        count_null (fillna (median (to_numeric_values tc)) (to_numeric_values tc))]
              = 0%nat);
         local_row_count := Z.of_nat (length tv);
         supabase_row_count_seen := supabase_row_count supabase response;
         row_count_match :=
           bool_decide (Some (Z.of_nat (length tv)) = supabase_row_count supabase response);
         tenure_group_ok :=
           bool_decide (expected_tenure_groups
                        = unique_values (Category (map tenure_group (fillna (median tv) tv))));
         monthly_segment_ok :=
           bool_decide (expected_segments
                        = unique_values
                            (Object (map (fun c => Some (monthly_charge_segment c))
                                       (fillna (median mv) mv))));
         contract_code_ok :=
           bool_decide (unique_values (from_text contract_code (q (-1)) (fill_unknown contract))
                        ⊆ valid_codes)
       |}.
Proof.
  intros Hout.
  destruct (readable_inv raw (transform_data_readable parse_number raw out Hout))
    as (tv & mv & tc & internet & lines & contract & Ht & Hm & Hc & Hi & Hl & Hct).
  destruct (transform_data_columns parse_number raw tv mv tc internet lines contract
              Ht Hm Hc Hi Hl Hct) as (out' & Hout' & Htab).
  rewrite Hout in Hout'. injection Hout' as <-.
  exists tv, mv, tc, contract.
  assert (out !! "tenure" = Some (Number (fillna (median tv) tv))) as H1.
  { rewrite Htab. repeat (case_decide; [done|]). done. }
  assert (out !! "MonthlyCharges" = Some (Number (fillna (median mv) mv))) as H2.
  { rewrite Htab. repeat (case_decide; [done|]). done. }
  assert (out !! "TotalCharges"
          = Some (Number (fillna (median (to_numeric_values tc)) (to_numeric_values tc)))) as H3.
  { rewrite Htab. repeat (case_decide; [done|]). done. }
  assert (out !! "tenure_group" = Some (Category (map tenure_group (fillna (median tv) tv))))
    as H4.
  { rewrite Htab. repeat (case_decide; [done|]). done. }
  assert (out !! "monthly_charge_segment"
          = Some (Object (map (fun c => Some (monthly_charge_segment c)) (fillna (median mv) mv))))
    as H5.
  { rewrite Htab. repeat (case_decide; [done|]). done. }
  assert (out !! "contract_type_code"
          = Some (from_text contract_code (q (-1)) (fill_unknown contract))) as H6.
  { rewrite Htab. repeat (case_decide; [done|]). done. }
  repeat (split; [done|]).
  unfold run_validation, required_cols. cbn. rewrite H1, H2, H3, H4, H5, H6. cbn.
  by rewrite !fillna_length.
Qed.

(** X24: the validator always gets its results from the frame the
    transform staged (the CSV file in between taken to hold the same
    values): the six columns it reads are there, the local row count is
    that of the raw file, and [missing_values] is true exactly when no
    one of [tenure], [MonthlyCharges] and the coerced [TotalCharges]
    that has a missing value is missing throughout. *)
Theorem transform_output_is_validated
  (raw out : gmap string column) (supabase : option Load.client) (response : count_response) :
  transform_data raw = Some out ->
  exists r,
    run_validation (Some out) supabase response = Some r
    /\ (forall c, raw !! "tenure" = Some c -> local_row_count r = Z.of_nat (column_length c))
    /\ (missing_values r = true
        <-> forall name c, name ∈ required_cols -> raw !! name = Some c ->
              None ∈ to_numeric_values c -> exists x, Some x ∈ to_numeric_values c).
Proof.
  intros Hout.
  destruct (validated_output raw out supabase response Hout)
    as (tv & mv & tc & contract & Ht & Hm & Hc & _ & _ & _ & Hrun).
  eexists. split; [exact Hrun|]. cbn [local_row_count missing_values]. split.
  - intros c Hcol. rewrite Ht in Hcol. by injection Hcol as <-.
  - rewrite bool_decide_eq_true. cbn [sum_list foldr]. split.
    + intros Hsum name c Hname Hcol. unfold required_cols in Hname.
      assert (count_null (fillna (median tv) tv) = 0%nat) as Htv by (cbn in Hsum; lia).
      assert (count_null (fillna (median mv) mv) = 0%nat) as Hmv by (cbn in Hsum; lia).
      assert (count_null (fillna (median (to_numeric_values tc)) (to_numeric_values tc)) = 0%nat)
        as Hcv by (cbn in Hsum; lia).
      pose proof (proj1 (imputed_null _) (proj1 (count_null_zero _) Htv)) as Htv'.
      pose proof (proj1 (imputed_null _) (proj1 (count_null_zero _) Hmv)) as Hmv'.
      pose proof (proj1 (imputed_null _) (proj1 (count_null_zero _) Hcv)) as Hcv'.
      apply elem_of_cons in Hname as [-> | Hname].
      { rewrite Ht in Hcol. injection Hcol as <-. exact Htv'. }
      apply elem_of_cons in Hname as [-> | Hname].
      { rewrite Hm in Hcol. injection Hcol as <-. exact Hmv'. }
      apply elem_of_cons in Hname as [-> | Hname].
      { rewrite Hc in Hcol. injection Hcol as <-. exact Hcv'. }
      by apply elem_of_nil in Hname.
    + intros Hall.
      pose proof (Hall "tenure" (Number tv) ltac:(left) Ht) as Htv.
      pose proof (Hall "MonthlyCharges" (Number mv) ltac:(right; left) Hm) as Hmv.
      pose proof (Hall "TotalCharges" tc ltac:(do 2 right; left) Hc) as Hcv.
      cbn [Transform.to_numeric_values] in Htv, Hmv.
      apply imputed_null, count_null_zero in Htv.
      apply imputed_null, count_null_zero in Hmv.
      apply imputed_null, count_null_zero in Hcv.
      cbn. lia.
Qed.


(** X26: on the frame the transform staged, [monthly_segment_ok] is
    true exactly when each of the three segments has a row, and
    [tenure_group_ok] exactly when every row has a tenure group and each
    of the four groups has a row; a tenure of -1 or less has no group,
    so one such row makes [tenure_group_ok] false. *)
Theorem label_checks_need_every_label_in_the_data
  (raw out : gmap string column) (supabase : option Load.client) (response : count_response)
  (r : report) (tenure charges : list (option Qc)) :
  transform_data raw = Some out ->
  run_validation (Some out) supabase response = Some r ->
  out !! "tenure" = Some (Number tenure) ->
  out !! "MonthlyCharges" = Some (Number charges) ->
  (monthly_segment_ok r = true
   <-> forall l, l ∈ ["Low"; "Medium"; "High"] ->
         exists c, c ∈ charges /\ monthly_charge_segment c = l)
  /\ (tenure_group_ok r = true
      <-> (forall t, t ∈ tenure -> is_Some (tenure_group t))
          /\ forall l, l ∈ labels -> exists t, t ∈ tenure /\ tenure_group t = Some l)
  /\ (forall t, Some t ∈ tenure -> (t <= q (-1))%Qc -> tenure_group_ok r = false).
Proof.
  intros Hout Hr Htenure Hcharges.
  destruct (validated_output raw out supabase response Hout)
    as (tv & mv & tc & contract & _ & _ & _ & _ & Ht & Hm & Hrun).
  rewrite Hr in Hrun. injection Hrun as ->.
  rewrite Htenure in Ht. injection Ht as <-. rewrite Hcharges in Hm. injection Hm as <-.
  cbn [monthly_segment_ok tenure_group_ok].
  assert (bool_decide (expected_tenure_groups = unique_values (Category (map tenure_group tenure)))
          = true
          <-> (forall t, t ∈ tenure -> is_Some (tenure_group t))
              /\ forall l, l ∈ labels -> exists t, t ∈ tenure /\ tenure_group t = Some l)
    as Hgroups.
  { rewrite bool_decide_eq_true, expected_tenure_groups_list, expected_set_spec.
    cbn [values_of]. unfold tenure_labels. split.
    - intros Hall. split.
      + intros t Hin.
        assert ((inr <$> tenure_group t : value) ∈ values_of (Category (map tenure_group tenure))) as Hv.
        { apply list_elem_of_fmap. eexists. split; [reflexivity|].
          apply list_elem_of_fmap. by exists t. }
        apply Hall, list_elem_of_fmap in Hv as (l & Hl & _).
        destruct (tenure_group t); [by eexists | done].
      + intros l Hl.
        assert (text l ∈ map text labels) as Hv by (apply list_elem_of_fmap; by exists l).
        apply Hall, list_elem_of_fmap in Hv as (g & Hg & Hin).
        apply list_elem_of_fmap in Hin as (t & -> & Hin).
        exists t. split; [done|]. destruct (tenure_group t) as [l'|]; [|done].
        by injection Hg as ->.
    - intros [Hsome Hevery] v. split.
      + intros Hv. apply list_elem_of_fmap in Hv as (g & -> & Hin).
        apply list_elem_of_fmap in Hin as (t & -> & Hin).
        destruct (Hsome t Hin) as [l Hl]. rewrite Hl.
        apply list_elem_of_fmap. exists l. split; [done|]. by eapply tenure_group_label.
      + intros Hv. apply list_elem_of_fmap in Hv as (l & -> & Hl).
        destruct (Hevery l Hl) as (t & Hin & Hg).
        apply list_elem_of_fmap. exists (Some l). split; [done|].
        apply list_elem_of_fmap. by exists t. }
  split; [|split; [exact Hgroups|]].
  - rewrite bool_decide_eq_true, expected_segments_list, expected_set_spec.
    cbn [values_of]. unfold segment_labels. split.
    + intros Hall l Hl.
      assert (text l ∈ map text ["Low"; "Medium"; "High"]) as Hv
          by (apply list_elem_of_fmap; by exists l).
      apply Hall, list_elem_of_fmap in Hv as (g & Hg & Hin).
      apply list_elem_of_fmap in Hin as (c & -> & Hin).
      exists c. split; [done|]. by injection Hg as ->.
    + intros Hevery v. split.
      * intros Hv. apply list_elem_of_fmap in Hv as (g & -> & Hin).
        apply list_elem_of_fmap in Hin as (c & -> & Hin).
        apply list_elem_of_fmap. exists (monthly_charge_segment c). split; [done|].
        apply segment_label.
      * intros Hv. apply list_elem_of_fmap in Hv as (l & -> & Hl).
        destruct (Hevery l Hl) as (c & Hin & <-).
        apply list_elem_of_fmap. exists (Some (monthly_charge_segment c)). split; [done|].
        apply list_elem_of_fmap. by exists c.
  - intros t Hin Hlow. apply not_true_is_false. intros Hok.
    destruct (proj1 (proj1 Hgroups Hok) (Some t) Hin) as [l Hl].
    rewrite tenure_group_eval in Hl.
    rewrite bool_decide_eq_false_2 in Hl by (by apply Qcle_not_lt). done.
Qed.

End WithParser.

Lemma transform_output_witness :
  exists out r,
    transform_data parse raw = Some out
    /\ run_validation (Some out) None OtherResponse = Some r
    /\ local_row_count r = 4%Z
    /\ missing_values r = true.
Proof.
  destruct demo_raw_runs as (out & Hout).
  destruct (transform_output_is_validated parse raw out None OtherResponse Hout)
    as (r & Hr & Hrows & Hmissing).
  exists out, r. split; [exact Hout|]. split; [exact Hr|]. split.
  - apply (Hrows (Number tenure)). reflexivity.
  - apply Hmissing. intros name c Hname Hcol _. unfold required_cols in Hname.
    apply elem_of_cons in Hname as [-> | Hname].
    { assert (c = Number tenure) as -> by (by injection Hcol as <-). exists (q 0). left. }
    apply elem_of_cons in Hname as [-> | Hname].
    { assert (c = Number charges) as -> by (by injection Hcol as <-). exists (q 10). left. }
    apply elem_of_cons in Hname as [-> | Hname].
    { assert (c = total) as -> by (by injection Hcol as <-). exists (q 20). left. }
    by apply elem_of_nil in Hname.
Defined.


Lemma label_checks_in_the_data_witness :
  exists out r,
    transform_data parse raw = Some out
    /\ run_validation (Some out) None OtherResponse = Some r
    /\ monthly_segment_ok r = true.
Proof.
  destruct demo_raw_runs as (out & Hout).
  destruct (validated_output parse raw out None OtherResponse Hout)
    as (tv & mv & tc & contract & Htv & Hmv & _ & _ & Ht & Hm & Hr).
  assert (tv = tenure) as -> by (by injection Htv as <-).
  assert (mv = charges) as -> by (by injection Hmv as <-).
  eexists out, _. split; [exact Hout|]. split; [exact Hr|].
  apply (label_checks_need_every_label_in_the_data parse raw out None OtherResponse _
           _ _ Hout Hr Ht Hm).
  intros l Hl.
  apply elem_of_cons in Hl as [-> | Hl]; [exists (Some (q 10)); split; [left | reflexivity]|].
  apply elem_of_cons in Hl as [-> | Hl];
    [exists (Some (q 30)); split; [right; left | reflexivity]|].
  apply elem_of_cons in Hl as [-> | Hl];
    [exists (Some (q 100)); split; [do 3 right; left | reflexivity]|].
  by apply elem_of_nil in Hl.
Defined.

End PipelineExtras.
